(** * GitToys: the git-operations layer ([GitService]) and the webview's
    template prefixing, embedded from the TypeScript sources.

    - [src/git/gitService.ts]: status conversion, the change-set query
      [getChangedFiles], the batch [bulkCommit], [undoLastCommit] and
      [getSyncStatus];
    - [webview-ui/bulkCommit.ts]: [applyTemplateToSelected].

    Conventions of the embedding.
    - A JavaScript string is a [string]; [startsWith], [slice] and [replace]
      work position by position, which is all the sources rely on.
    - A JavaScript [number] holding a commit count is a [Z].
    - An [async] method is a state transformer over a [World] that returns a
      settled promise: [Fulfilled v] or [Rejected e].  A [throw] inside an
      [async] body is a rejection; [try]/[catch] keeps the world reached so
      far and hands the thrown value to the handler.
    - The version-control backend (VS Code's git extension) is not part of
      the repository: it is the interface [GitBackend], over which every
      statement is quantified.  The [World] also records each backend call
      and its answer, so that "which calls were made, in which order" is an
      observable of a run. *)

From Stdlib Require Import Ascii String ZArith.
From stdpp Require Import base option list strings gmap pretty.

(** ** JavaScript values and promises *)

Module JS.

(** What a [catch (error)] clause can receive: an [Error] object with its
    [message], or any other value, kept as its [String(error)] rendering. *)
Inductive Thrown : Type :=
| ErrorObject (message : string)
| NonError (rendered : string).

(** [error instanceof Error ? error.message : String(error)] *)
Definition errorMessage (error : Thrown) : string :=
  match error with
  | ErrorObject message => message
  | NonError rendered => rendered
  end.

Inductive Settled (A : Type) : Type :=
| Fulfilled (value : A)
| Rejected (reason : Thrown).
Arguments Fulfilled {A} value.
Arguments Rejected {A} reason.

(** [s.startsWith(t)] *)
Fixpoint startsWith (s t : string) {struct t} : bool :=
  match t with
  | EmptyString => true
  | String b t' =>
      match s with
      | EmptyString => false
      | String a s' => if Ascii.eqb a b then startsWith s' t' else false
      end
  end.

(** [s.slice(n)] for [n >= 0] *)
Fixpoint slice (s : string) (n : nat) : string :=
  match n, s with
  | O, _ => s
  | S n', EmptyString => EmptyString
  | S n', String _ s' => slice s' n'
  end.

(** [s.replace(/\\/g, '/')] *)
Fixpoint replaceBackslashes (s : string) : string :=
  match s with
  | EmptyString => EmptyString
  | String a s' =>
      String (if Ascii.eqb a "\"%char then "/"%char else a)
             (replaceBackslashes s')
  end.

(** [x || 0] on an optional count: [undefined] and [0] are falsy. *)
Definition orZero (x : option Z) : Z :=
  match x with
  | Some n => if Z.eqb n 0 then 0%Z else n
  | None => 0%Z
  end.

(** [a || b] on optional object references (an object is always truthy). *)
Definition orElse {A : Type} (a b : option A) : option A :=
  match a with
  | Some x => Some x
  | None => b
  end.

End JS.
Export JS.

(** ** The git extension's API types ([types/git]) *)

(** Modelled from the spec: the declaration file [types/git] imported by the
    service is missing, so the enumeration carries the members that
    [convertStatus] and [isStaged] name, the three "both sides touched" codes
    among them, and the extension's remaining members, which all reach the
    [default] branch. *)

Inductive Status : Type :=
| INDEX_MODIFIED | INDEX_ADDED | INDEX_DELETED | INDEX_RENAMED | INDEX_COPIED
| MODIFIED | DELETED | UNTRACKED | IGNORED | INTENT_TO_ADD
| INTENT_TO_RENAME | TYPE_CHANGED
| ADDED_BY_US | ADDED_BY_THEM | DELETED_BY_US | DELETED_BY_THEM
| BOTH_ADDED | BOTH_DELETED | BOTH_MODIFIED.

Module Uri.
(** [fsPath] and the result of [toString()]. *)
Record t : Type := mk { fsPath : string; toString : string }.
End Uri.

Module Change.
Record t : Type := mk { uri : Uri.t; status : Status }.
End Change.

Module UpstreamRef.
Record t : Type := mk { remote : string; name : string }.
End UpstreamRef.

Module Branch.
(** Modelled from the spec: the declaration of [Branch] is missing.  The
    service reads [name?], [ahead?] and [behind?]; [upstream?] is the
    tracking branch, absent when none is configured. *)
Record t : Type := mk {
  name : option string;
  upstream : option UpstreamRef.t;
  ahead : option Z;
  behind : option Z
}.
End Branch.

Module RepositoryState.
Record t : Type := mk {
  HEAD : option Branch.t;
  workingTreeChanges : list Change.t;
  indexChanges : list Change.t
}.
End RepositoryState.

Module Repository.
(** The members read synchronously: [rootUri] and [state].  The
    asynchronous methods are those of [GitBackend] below. *)
Record t : Type := mk { rootUri : Uri.t; state : RepositoryState.t }.
End Repository.

Module API.
Record t : Type := mk {
  repositories : list Repository.t;
  getRepository : Uri.t -> option Repository.t
}.
End API.

Module Commit.
Record t : Type := mk { hash : string; message : string }.
End Commit.

(** ** The service's own types *)

Inductive FileStatus : Type :=
| modified | added | deleted | renamed | untracked | conflicted.

Module FileChange.
Record t : Type := mk {
  path : string;
  relativePath : string;
  status : FileStatus;
  staged : bool;
  uri : string
}.
End FileChange.

Module CommitTask.
Record t : Type := mk { filePath : string; message : string }.
End CommitTask.

Module CommitResult.
Record t : Type := mk {
  success : bool;
  filePath : string;
  message : option string;
  error : option string
}.
End CommitResult.

Module BulkCommitResult.
Record t : Type := mk {
  successful : list CommitResult.t;
  failed : list CommitResult.t;
  totalCommits : nat
}.
End BulkCommitResult.

Module SyncStatus.
Record t : Type := mk { ahead : Z; behind : Z }.
End SyncStatus.

Module UndoResult.
Record t : Type := mk { success : bool; error : option string }.
End UndoResult.

(** The service object ([private api: API | undefined]) and the part of the
    editor window it consults ([vscode.window.activeTextEditor], as the
    [document.uri] of the active editor). *)
Module GitService.
Record t : Type := mk { api : option API.t }.
End GitService.

Module Window.
Record t : Type := mk { activeTextEditor : option Uri.t }.
End Window.

(** ** Repository selection *)

Definition getActiveRepository (this : GitService.t) (window : Window.t)
  : option Repository.t :=
  match GitService.api this with
  | None => None
  | Some api =>
      match API.repositories api with
      | [] => None
      | first :: _ =>
          match Window.activeTextEditor window with
          | Some documentUri =>
              match API.getRepository api documentUri with
              | Some repo => Some repo
              | None => Some first
              end
          | None => Some first
          end
      end
  end.

(** [repo || this.getActiveRepository()] *)
Definition boundRepository (this : GitService.t) (window : Window.t)
    (repo : option Repository.t) : option Repository.t :=
  orElse repo (getActiveRepository this window).

(** ** Status conversion *)

Definition convertStatus (status : Status) : FileStatus :=
  match status with
  | INDEX_MODIFIED | MODIFIED => modified
  | INDEX_ADDED | UNTRACKED | INTENT_TO_ADD => added
  | INDEX_DELETED | DELETED => deleted
  | INDEX_RENAMED | INDEX_COPIED => renamed
  | ADDED_BY_US | ADDED_BY_THEM | DELETED_BY_US | DELETED_BY_THEM
  | BOTH_ADDED | BOTH_DELETED | BOTH_MODIFIED => conflicted
  | _ => modified
  end.

Definition isStaged (status : Status) : bool :=
  match status with
  | INDEX_MODIFIED | INDEX_ADDED | INDEX_DELETED
  | INDEX_RENAMED | INDEX_COPIED => true
  | _ => false
  end.

(** ** The change-set query *)

Definition getRelativePath (absolutePath rootPath : string) : string :=
  if startsWith absolutePath rootPath
  then replaceBackslashes (slice absolutePath (String.length rootPath + 1))
  else replaceBackslashes absolutePath.

(** The object literal pushed for one backend change. *)
Definition toFileChange (rootPath : string) (isStagedEntry : bool)
    (change : Change.t) : FileChange.t :=
  FileChange.mk
    (Uri.fsPath (Change.uri change))
    (getRelativePath (Uri.fsPath (Change.uri change)) rootPath)
    (convertStatus (Change.status change))
    isStagedEntry
    (Uri.toString (Change.uri change)).

(** [changes.findIndex(c => c.path === p)]; [None] stands for [-1]. *)
Definition findIndex (p : string) (changes : list FileChange.t) : option nat :=
  fst <$> list_find (λ c, FileChange.path c = p) changes.

(** [c.staged = true] *)
Definition markStaged (c : FileChange.t) : FileChange.t :=
  FileChange.mk (FileChange.path c) (FileChange.relativePath c)
                (FileChange.status c) true (FileChange.uri c).

(** Body of the second loop, over [indexChanges]. *)
Definition foldIndexChange (rootPath : string) (changes : list FileChange.t)
    (change : Change.t) : list FileChange.t :=
  match findIndex (Uri.fsPath (Change.uri change)) changes with
  | Some existingIndex => alter markStaged existingIndex changes
  | None => changes ++ [toFileChange rootPath true change]
  end.

(** The two loops of [getChangedFiles] on a bound repository. *)
Definition reconcile (rootPath : string)
    (workingTreeChanges indexChanges : list Change.t) : list FileChange.t :=
  foldl (foldIndexChange rootPath)
        (toFileChange rootPath false <$> workingTreeChanges)
        indexChanges.

Definition getChangedFiles (this : GitService.t) (window : Window.t)
    (repo : option Repository.t) : Settled (list FileChange.t) :=
  match boundRepository this window repo with
  | None => Fulfilled []
  | Some repository =>
      Fulfilled
        (reconcile (Uri.fsPath (Repository.rootUri repository))
           (RepositoryState.workingTreeChanges (Repository.state repository))
           (RepositoryState.indexChanges (Repository.state repository)))
  end.

(** ** Sync status *)

Definition getSyncStatus (this : GitService.t) (window : Window.t)
    (repo : option Repository.t) : option SyncStatus.t :=
  match boundRepository this window repo with
  | None => None
  | Some repository =>
      match RepositoryState.HEAD (Repository.state repository) with
      | None => None
      | Some head =>
          Some (SyncStatus.mk (orZero (Branch.ahead head))
                              (orZero (Branch.behind head)))
      end
  end.

(** ** The backend interface and asynchronous runs *)

(** The asynchronous members the service calls on the git extension, over a
    backend state [W].  Each takes the state and returns the next state with
    the promise's settlement: [None] for a resolved [Promise<void>],
    [Some e] for a rejection with [e]. *)
Class GitBackend (W : Type) : Type := {
  (** [repository.add(paths)] *)
  repository_add : Repository.t -> list string -> W -> W * option Thrown;
  (** [repository.commit(message)] *)
  repository_commit : Repository.t -> string -> W -> W * option Thrown;
  (** [repository.log({ maxEntries })] *)
  repository_log : Repository.t -> nat -> W -> W * Settled (list Commit.t);
  (** [vscode.commands.executeCommand(command)] *)
  executeCommand : string -> W -> W * option Thrown
}.

(** One backend call with its settlement. *)
Inductive Event : Type :=
| EvAdd (paths : list string) (settled : option Thrown)
| EvCommit (message : string) (settled : option Thrown)
| EvLog (maxEntries : nat) (settled : Settled (list Commit.t))
| EvCommand (command : string) (settled : option Thrown).

Module World.
Record t (W : Type) : Type := mk { backend : W; trace : list Event }.
Arguments mk {W} backend trace.
Arguments backend {W} _.
Arguments trace {W} _.
End World.

(** An [async] body. *)
Definition Async (W A : Type) : Type := World.t W -> World.t W * Settled A.

Definition ret {W A : Type} (a : A) : Async W A :=
  λ w, (w, Fulfilled a).

(** [throw e] *)
Definition throw {W A : Type} (e : Thrown) : Async W A :=
  λ w, (w, Rejected e).

(** [const x = await m; k x] *)
Definition bind {W A B : Type} (k : A -> Async W B) (m : Async W A)
  : Async W B :=
  λ w, match m w with
       | (w', Fulfilled a) => k a w'
       | (w', Rejected e) => (w', Rejected e)
       end.

(** [try { body } catch (error) { handler error }] *)
Definition tryCatch {W A : Type} (body : Async W A)
    (handler : Thrown -> Async W A) : Async W A :=
  λ w, match body w with
       | (w', Fulfilled a) => (w', Fulfilled a)
       | (w', Rejected e) => handler e w'
       end.

#[global] Instance Async_ret {W : Type} : MRet (Async W) := @ret W.
#[global] Instance Async_bind {W : Type} : MBind (Async W) := @bind W.

(** A [Promise<void>] settlement as a settled promise. *)
Definition settleVoid (r : option Thrown) : Settled unit :=
  match r with
  | None => Fulfilled tt
  | Some e => Rejected e
  end.

Section Calls.
Context {W : Type} `{GitBackend W}.

Definition callAdd (repository : Repository.t) (paths : list string)
  : Async W unit :=
  λ w, let '(b, r) := repository_add repository paths (World.backend w) in
       (World.mk b (World.trace w ++ [EvAdd paths r]), settleVoid r).

Definition callCommit (repository : Repository.t) (message : string)
  : Async W unit :=
  λ w, let '(b, r) := repository_commit repository message (World.backend w) in
       (World.mk b (World.trace w ++ [EvCommit message r]), settleVoid r).

Definition callLog (repository : Repository.t) (maxEntries : nat)
  : Async W (list Commit.t) :=
  λ w, let '(b, r) := repository_log repository maxEntries (World.backend w) in
       (World.mk b (World.trace w ++ [EvLog maxEntries r]), r).

Definition callCommand (command : string) : Async W unit :=
  λ w, let '(b, r) := executeCommand command (World.backend w) in
       (World.mk b (World.trace w ++ [EvCommand command r]), settleVoid r).

(** ** The batch of per-file commits *)

(** [result.successful.push({...})] *)
Definition pushSuccessful (result : BulkCommitResult.t) (task : CommitTask.t)
  : BulkCommitResult.t :=
  BulkCommitResult.mk
    (BulkCommitResult.successful result ++
       [CommitResult.mk true (CommitTask.filePath task)
          (Some (CommitTask.message task)) None])
    (BulkCommitResult.failed result)
    (BulkCommitResult.totalCommits result).

(** [result.failed.push({...})] *)
Definition pushFailed (result : BulkCommitResult.t) (task : CommitTask.t)
    (errorMessage : string) : BulkCommitResult.t :=
  BulkCommitResult.mk
    (BulkCommitResult.successful result)
    (BulkCommitResult.failed result ++
       [CommitResult.mk false (CommitTask.filePath task)
          (Some (CommitTask.message task)) (Some errorMessage)])
    (BulkCommitResult.totalCommits result).

(** One iteration of [for (const task of tasks)]. *)
Definition commitTask (repository : Repository.t)
    (result : BulkCommitResult.t) (task : CommitTask.t)
  : Async W BulkCommitResult.t :=
  tryCatch
    (callAdd repository [CommitTask.filePath task];;
     callCommit repository (CommitTask.message task);;
     ret (pushSuccessful result task))
    (λ error, ret (pushFailed result task (errorMessage error))).

(** The loop, threading the [result] object. *)
Fixpoint commitTasks (repository : Repository.t) (tasks : list CommitTask.t)
    (result : BulkCommitResult.t) : Async W BulkCommitResult.t :=
  match tasks with
  | [] => ret result
  | task :: rest =>
      result' ← commitTask repository result task;
      commitTasks repository rest result'
  end.

Definition bulkCommit (this : GitService.t) (window : Window.t)
    (tasks : list CommitTask.t) (repo : option Repository.t)
  : Async W BulkCommitResult.t :=
  match boundRepository this window repo with
  | None => throw (ErrorObject "No repository found")
  | Some repository =>
      commitTasks repository tasks
        (BulkCommitResult.mk [] [] (length tasks))
  end.

(** ** Undo of the last commit *)

Definition undoLastCommit (this : GitService.t) (window : Window.t)
    (repo : option Repository.t) : Async W UndoResult.t :=
  match boundRepository this window repo with
  | None => ret (UndoResult.mk false (Some "No repository found"))
  | Some repository =>
      tryCatch
        (commits ← callLog repository 1;
         if Nat.eqb (length commits) 0
         then ret (UndoResult.mk false (Some "No commits to undo"))
         else
           callCommand "git.undoCommit";;
           ret (UndoResult.mk true None))
        (λ error, ret (UndoResult.mk false (Some (errorMessage error))))
  end.

End Calls.

(** ** Template prefixing in the webview ([BulkCommitApp]) *)

Module AppState.
(** [selectedFiles: Set<string>] in iteration order and
    [commitMessages: Map<string, string>]. *)
Record t : Type := mk {
  selectedFiles : list string;
  commitMessages : gmap string string
}.
End AppState.

(** [this.state.commitMessages.get(path) || ''] (the empty string is falsy) *)
Definition currentMessageOf (commitMessages : gmap string string)
    (path : string) : string :=
  match commitMessages !! path with
  | Some message => if String.eqb message "" then "" else message
  | None => ""
  end.

(** Body of [selectedFiles.forEach(path => ...)]. *)
Definition applyTemplateToPath (template : string)
    (commitMessages : gmap string string) (path : string)
  : gmap string string :=
  let currentMessage := currentMessageOf commitMessages path in
  if negb (startsWith currentMessage template)
  then <[path := template +:+ currentMessage]> commitMessages
  else commitMessages.

(** The state update of [applyTemplateToSelected]; the calls to [saveState]
    and [render] that follow persist and display it and are left out. *)
Definition applyTemplateToSelected (template : string) (state : AppState.t)
  : AppState.t :=
  AppState.mk
    (AppState.selectedFiles state)
    (foldl (applyTemplateToPath template)
           (AppState.commitMessages state)
           (AppState.selectedFiles state)).

(** The transformation of one message, as the specification words it:
    [template + current] unless [current] already starts with [template]. *)
Definition applyTemplate (current template : string) : string :=
  if startsWith current template then current else template +:+ current.

(** ** A scripted backend, for running the service on concrete inputs *)

Module Sim.

Record t : Type := mk {
  commits : list Commit.t;        (* history, newest first *)
  index : list string;            (* staged paths *)
  unstageable : list string;      (* paths whose staging is rejected *)
  rejectedMessages : list string; (* messages a hook rejects *)
  resetRejected : bool            (* the soft reset is rejected *)
}.

Definition add (paths : list string) (s : t) : t * option Thrown :=
  if bool_decide (Exists (λ p, p ∈ unstageable s) paths)
  then (s, Some (ErrorObject "pathspec did not match any files"))
  else (mk (commits s) (index s ++ paths) (unstageable s)
           (rejectedMessages s) (resetRejected s), None).

Definition commit (message : string) (s : t) : t * option Thrown :=
  if bool_decide (message ∈ rejectedMessages s)
  then (s, Some (NonError "pre-commit hook failed"))
  else (mk (Commit.mk "" message :: commits s) [] (unstageable s)
           (rejectedMessages s) (resetRejected s), None).

Definition log (maxEntries : nat) (s : t) : t * Settled (list Commit.t) :=
  (s, Fulfilled (take maxEntries (commits s))).

Definition command (name : string) (s : t) : t * option Thrown :=
  if bool_decide (name = "git.undoCommit")
  then match commits s with
       | [] => (s, Some (ErrorObject "no commits"))
       | _ :: older =>
           if resetRejected s
           then (s, Some (ErrorObject "reset rejected"))
           else (mk older (index s) (unstageable s)
                    (rejectedMessages s) (resetRejected s), None)
       end
  else (s, None).

#[global] Instance backend : GitBackend t := {
  repository_add := λ _, add;
  repository_commit := λ _, commit;
  repository_log := λ _, log;
  executeCommand := command
}.

Definition fresh : World.t t := World.mk (mk [] [] [] [] false) [].

Definition file (p : string) : Uri.t := Uri.mk p ("file://" +:+ p).

Definition repo (head : option Branch.t) (workingTree index_ : list Change.t)
  : Repository.t :=
  Repository.mk (file "/w") (RepositoryState.mk head workingTree index_).

Definition emptyRepo : Repository.t := repo None [] [].

(** A service that never initialised ([api] undefined), no editor open. *)
Definition unbound : GitService.t := GitService.mk None.
Definition noEditor : Window.t := Window.mk None.

(** Sample changes of a repository rooted at [/w]. *)
Definition change (p : string) (status : Status) : Change.t :=
  Change.mk (file p) status.

Definition wtSample : list Change.t :=
  [change "/w/a.txt" MODIFIED; change "/w/b.txt" UNTRACKED].

Definition idxSample : list Change.t :=
  [change "/w/a.txt" INDEX_MODIFIED; change "/w/c.txt" INDEX_ADDED;
   change "/w/c.txt" INDEX_ADDED].

(** The same path listed twice among the working-tree changes. *)
Definition wtRepeated : list Change.t :=
  [change "/w/a.txt" MODIFIED; change "/w/a.txt" DELETED].

(** The batch of the order property: three files, staging rejected for
    the second. *)
Definition abc : list CommitTask.t :=
  [CommitTask.mk "a.txt" "add a"; CommitTask.mk "b.txt" "add b";
   CommitTask.mk "c.txt" "add c"].

Definition rejectingB : World.t t :=
  World.mk (mk [] [] ["b.txt"] [] false) [].

(** One commit in the history, and a soft reset that is rejected. *)
Definition resetRejecting : World.t t :=
  World.mk (mk [Commit.mk "" "first"] [] [] [] true) [].

(** A local branch that tracks nothing, and one two commits ahead of its
    upstream. *)
Definition localBranch : Branch.t :=
  Branch.mk (Some "topic") None None None.

Definition aheadBranch : Branch.t :=
  Branch.mk (Some "main") (Some (UpstreamRef.mk "origin" "main"))
            (Some 2%Z) (Some 0%Z).

End Sim.

(** ** Observations used in the statements *)

(** The output entries that carry path [p], in output order. *)
Definition entriesFor (p : string) (changes : list FileChange.t)
  : list FileChange.t :=
  filter (λ c, FileChange.path c = p) changes.

(** The backend changes recorded for path [p], in list order. *)
Definition changesFor (p : string) (changes : list Change.t) : list Change.t :=
  filter (λ c, Uri.fsPath (Change.uri c) = p) changes.

Definition changePaths (changes : list Change.t) : list string :=
  (λ c, Uri.fsPath (Change.uri c)) <$> changes.

(** The three codes of a path touched on both sides of a merge. *)
Definition bothSidesTouched (status : Status) : bool :=
  match status with
  | BOTH_ADDED | BOTH_DELETED | BOTH_MODIFIED => true
  | _ => false
  end.

(** How the attempt at one task of a batch went. *)
Inductive TaskOutcome : Type :=
| Committed
| StageFailed (error : Thrown)
| CommitFailed (error : Thrown).

Definition committed (attempt : CommitTask.t * TaskOutcome) : bool :=
  match attempt.2 with
  | Committed => true
  | _ => false
  end.

(** The backend calls of one attempt: the file is always staged first; the
    commit is called only after a resolved staging. *)
Definition attemptEvents (attempt : CommitTask.t * TaskOutcome) : list Event :=
  let task := attempt.1 in
  match attempt.2 with
  | Committed =>
      [EvAdd [CommitTask.filePath task] None;
       EvCommit (CommitTask.message task) None]
  | StageFailed error =>
      [EvAdd [CommitTask.filePath task] (Some error)]
  | CommitFailed error =>
      [EvAdd [CommitTask.filePath task] None;
       EvCommit (CommitTask.message task) (Some error)]
  end.

(** The [CommitResult] recorded for one attempt. *)
Definition attemptResult (attempt : CommitTask.t * TaskOutcome)
  : CommitResult.t :=
  let task := attempt.1 in
  match attempt.2 with
  | Committed =>
      CommitResult.mk true (CommitTask.filePath task)
        (Some (CommitTask.message task)) None
  | StageFailed error | CommitFailed error =>
      CommitResult.mk false (CommitTask.filePath task)
        (Some (CommitTask.message task)) (Some (errorMessage error))
  end.

(** What one iteration of the batch loop records for an outcome. *)
Definition recordOutcome (result : BulkCommitResult.t) (task : CommitTask.t)
    (o : TaskOutcome) : BulkCommitResult.t :=
  match o with
  | Committed => pushSuccessful result task
  | StageFailed error | CommitFailed error =>
      pushFailed result task (errorMessage error)
  end.

(** The path lists passed to [repository.add], in call order. *)
Definition addCalls (events : list Event) : list (list string) :=
  omap (λ ev, match ev with EvAdd paths _ => Some paths | _ => None end)
       events.

(** A backend call that went through and may have changed the repository:
    a resolved [add], [commit] or command ([log] only reads). *)
Definition completedMutation (ev : Event) : bool :=
  match ev with
  | EvAdd _ None | EvCommit _ None | EvCommand _ None => true
  | _ => false
  end.

(** * The rest of the service, its panel, the webview and the commands *)

(** ** Further string operations *)

Module JSString.

(** [s.split(sep)] where [sep] matches exactly one character: a one-character
    string, or a character class such as [/[/\\]/].  The result is never
    empty. *)
Fixpoint split (isSeparator : ascii → bool) (s : string) : list string :=
  match s with
  | EmptyString => [EmptyString]
  | String a s' =>
      if isSeparator a then EmptyString :: split isSeparator s'
      else match split isSeparator s' with
           | [] => [String a EmptyString]
           | part :: parts => String a part :: parts
           end
  end.

(** [parts.join(sep)] *)
Fixpoint join (sep : string) (parts : list string) : string :=
  match parts with
  | [] => EmptyString
  | [part] => part
  | part :: rest => part +:+ sep +:+ join sep rest
  end.

(** [parts.slice(0, -1)] *)
Definition dropLast {A : Type} (parts : list A) : list A :=
  take (length parts - 1) parts.

(** [s || fallback]: the empty string is falsy. *)
Definition orString (s fallback : string) : string :=
  if String.eqb s "" then fallback else s.

(** [x || fallback] for an optional string. *)
Definition orDefault (x : option string) (fallback : string) : string :=
  match x with
  | Some s => orString s fallback
  | None => fallback
  end.

(** [s.includes(q)] *)
Fixpoint includes (s q : string) : bool :=
  startsWith s q ||
  match s with
  | EmptyString => false
  | String _ s' => includes s' q
  end.

(** [s.trimStart()] and [s.trimEnd()], over the characters the runtime
    counts as white space. *)
Fixpoint trimStart (isWhiteSpace : ascii → bool) (s : string) : string :=
  match s with
  | EmptyString => EmptyString
  | String a s' => if isWhiteSpace a then trimStart isWhiteSpace s' else s
  end.

Fixpoint trimEnd (isWhiteSpace : ascii → bool) (s : string) : string :=
  match s with
  | EmptyString => EmptyString
  | String a s' =>
      match trimEnd isWhiteSpace s' with
      | EmptyString => if isWhiteSpace a then EmptyString
                       else String a EmptyString
      | kept => String a kept
      end
  end.

(** [s.trim()] *)
Definition trim (isWhiteSpace : ascii → bool) (s : string) : string :=
  trimEnd isWhiteSpace (trimStart isWhiteSpace s).

Definition isSlash (a : ascii) : bool := Ascii.eqb a "/".

(** The class [[/\\]]. *)
Definition isPathSeparator (a : ascii) : bool :=
  Ascii.eqb a "/" || Ascii.eqb a "\".

(** The characters of a string. *)
Fixpoint chars (s : string) : list ascii :=
  match s with
  | EmptyString => []
  | String a s' => a :: chars s'
  end.

End JSString.

(** What the runtime decides about text: the characters [trim] strips and
    the mapping [toLowerCase].  Statements hold for every choice. *)
Class TextRuntime : Type := {
  isWhiteSpace : ascii → bool;
  toLowerCase : string → string
}.

(** ** The remaining members of the service *)

Module RepositoryInfo.
Record t : Type := mk { name : string; branch : string; rootPath : string }.
End RepositoryInfo.

Module ChangesCount.
Record t : Type := mk { staged : nat; unstaged : nat; total : nat }.
End ChangesCount.

(** [{ success: boolean; error?: string }], as returned by [push], [pull]
    and [fetch]. *)
Module OperationResult.
Record t : Type := mk { success : bool; error : option string }.
End OperationResult.

Definition getRepositoryInfo (this : GitService.t) (window : Window.t)
    (repo : option Repository.t) : option RepositoryInfo.t :=
  match boundRepository this window repo with
  | None => None
  | Some repository =>
      let rootPath := Uri.fsPath (Repository.rootUri repository) in
      let name :=
        JSString.orDefault
          (last (JSString.split JSString.isPathSeparator rootPath))
          "Unknown" in
      let branch :=
        JSString.orDefault
          (RepositoryState.HEAD (Repository.state repository)
             ≫= Branch.name)
          "Unknown" in
      Some (RepositoryInfo.mk name branch rootPath)
  end.

Definition hasChanges (this : GitService.t) (window : Window.t)
    (repo : option Repository.t) : bool :=
  match boundRepository this window repo with
  | None => false
  | Some repository =>
      let state := Repository.state repository in
      Nat.ltb 0 (length (RepositoryState.workingTreeChanges state)) ||
      Nat.ltb 0 (length (RepositoryState.indexChanges state))
  end.

Definition getChangesCount (this : GitService.t) (window : Window.t)
    (repo : option Repository.t) : ChangesCount.t :=
  match boundRepository this window repo with
  | None => ChangesCount.mk 0 0 0
  | Some repository =>
      let staged :=
        length (RepositoryState.indexChanges (Repository.state repository)) in
      let unstaged :=
        length (RepositoryState.workingTreeChanges
                  (Repository.state repository)) in
      ChangesCount.mk staged unstaged (staged + unstaged)
  end.

(** The other asynchronous members of a repository the service calls. *)
Class GitRemote (W : Type) : Type := {
  (** [repository.revert(paths)] *)
  repository_revert : Repository.t → list string → W → W * option Thrown;
  (** [repository.push()], [repository.pull()], [repository.fetch()] *)
  repository_push : Repository.t → W → W * option Thrown;
  repository_pull : Repository.t → W → W * option Thrown;
  repository_fetch : Repository.t → W → W * option Thrown;
  (** [repository.diffWithHEAD(path)] *)
  repository_diffWithHEAD : Repository.t → string → W → W * Settled string
}.

Section Remote.
Context {W : Type} `{GitBackend W} `{GitRemote W}.

(** A call of one of these members; the trace keeps listing the calls of
    [GitBackend] only. *)
Definition callVoid (op : W → W * option Thrown) : Async W unit :=
  λ w, let '(b, r) := op (World.backend w) in
       (World.mk b (World.trace w), settleVoid r).

Definition callDiffWithHEAD (repository : Repository.t) (filePath : string)
  : Async W string :=
  λ w, let '(b, r) := repository_diffWithHEAD repository filePath
                        (World.backend w) in
       (World.mk b (World.trace w), r).

Definition stageFiles (this : GitService.t) (window : Window.t)
    (filePaths : list string) (repo : option Repository.t) : Async W unit :=
  match boundRepository this window repo with
  | None => throw (ErrorObject "No repository found")
  | Some repository => callAdd repository filePaths
  end.

Definition unstageFiles (this : GitService.t) (window : Window.t)
    (filePaths : list string) (repo : option Repository.t) : Async W unit :=
  match boundRepository this window repo with
  | None => throw (ErrorObject "No repository found")
  | Some repository => callVoid (repository_revert repository filePaths)
  end.

Definition commit (this : GitService.t) (window : Window.t)
    (message : string) (repo : option Repository.t) : Async W unit :=
  match boundRepository this window repo with
  | None => throw (ErrorObject "No repository found")
  | Some repository => callCommit repository message
  end.

Definition getDiff (this : GitService.t) (window : Window.t)
    (filePath : string) (repo : option Repository.t) : Async W string :=
  match boundRepository this window repo with
  | None => ret ""
  | Some repository =>
      tryCatch (callDiffWithHEAD repository filePath) (λ _, ret "")
  end.

(** The common body of [push], [pull] and [fetch] is written out in each. *)
Definition push (this : GitService.t) (window : Window.t)
    (repo : option Repository.t) : Async W OperationResult.t :=
  match boundRepository this window repo with
  | None => ret (OperationResult.mk false (Some "No repository found"))
  | Some repository =>
      tryCatch
        (callVoid (repository_push repository);;
         ret (OperationResult.mk true None))
        (λ error,
           ret (OperationResult.mk false (Some (errorMessage error))))
  end.




End Remote.

(** ** The webview application ([BulkCommitApp]) *)

#[global] Instance FileStatus_eq_dec : EqDecision FileStatus.
Proof. solve_decision. Defined.

Module Filter.
(** [FilterType] *)
Inductive t : Type := all | modified | added | deleted | staged | unstaged.
End Filter.

Module CommitTemplate.
Record t : Type := mk {
  name : string; template : string; description : string
}.
End CommitTemplate.

Module Settings.
Record t : Type := mk { pushAfterCommit : bool; confirmBeforeCommit : bool }.
End Settings.

Module BulkCommitResultInfo.
Record t : Type := mk {
  successful : nat; failed : nat; total : nat; errors : list string
}.
End BulkCommitResultInfo.

(** Messages from the extension to the webview; [FileInfo] and [RepoInfo]
    have the fields of [FileChange] and of the repository info. *)
Inductive ExtensionMessage : Type :=
| MsgChangedFiles (files : list FileChange.t)
    (repoInfo : option RepositoryInfo.t)
    (templates : option (list CommitTemplate.t))
    (settings : option Settings.t)
| MsgCommitResult (result : BulkCommitResultInfo.t)
| MsgError (message : string)
| MsgLoading (loading : bool)
| MsgTemplates (templates : list CommitTemplate.t)
| MsgApplyTemplate (template : string).

(** Messages from the webview to the extension; [CommitRequest] has the
    fields of [CommitTask]. *)
Inductive WebviewMessage : Type :=
| CmdGetChangedFiles
| CmdCommitFiles (commits : list CommitTask.t)
| CmdOpenDiff (filePath : string)
| CmdRefresh
| CmdStageFile (filePath : string)
| CmdUnstageFile (filePath : string)
| CmdReady
| CmdGetTemplates
| CmdPushChanges
| CmdApplyTemplateToAll (template : string).

Module WebviewState.
(** [AppState] of the webview; [selection] holds its [selectedFiles] and
    [commitMessages]. *)
Record t : Type := mk {
  files : list FileChange.t;
  repoInfo : option RepositoryInfo.t;
  selection : AppState.t;
  loading : bool;
  error : option string;
  templates : list CommitTemplate.t;
  settings : Settings.t;
  filter : Filter.t;
  searchQuery : string;
  groupByFolder : bool
}.

Definition selectedFiles (state : t) : list string :=
  AppState.selectedFiles (selection state).

Definition commitMessages (state : t) : gmap string string :=
  AppState.commitMessages (selection state).

(** The state with another selection and other messages. *)
Definition withSelection (state : t) (selected : list string)
    (messages : gmap string string) : t :=
  mk (files state) (repoInfo state) (AppState.mk selected messages)
     (loading state) (error state) (templates state) (settings state)
     (filter state) (searchQuery state) (groupByFolder state).
End WebviewState.

(** The click on a filter button: [this.state.filter = filter]. *)
Definition setFilter (filter : Filter.t) (state : WebviewState.t)
  : WebviewState.t :=
  WebviewState.mk (WebviewState.files state) (WebviewState.repoInfo state)
    (WebviewState.selection state) (WebviewState.loading state)
    (WebviewState.error state) (WebviewState.templates state)
    (WebviewState.settings state) filter (WebviewState.searchQuery state)
    (WebviewState.groupByFolder state).

(** [set.add(p)] and [set.delete(p)] on a [Set] kept in insertion order. *)
Definition setAdd (p : string) (set : list string) : list string :=
  if bool_decide (p ∈ set) then set else set ++ [p].

Definition setDelete (p : string) (set : list string) : list string :=
  List.filter (λ q, negb (String.eqb q p)) set.

(** [filteredFiles.some(f => f.path === path)] *)
Definition listed (path : string) (files : list FileChange.t) : bool :=
  existsb (λ f, String.eqb (FileChange.path f) path) files.

Section Webview.
Context `{TextRuntime}.

(** The predicate of each [case] of the filter [switch]; [all] has no
    case and keeps every file. *)
Definition matchesFilter (filter : Filter.t) (f : FileChange.t) : bool :=
  match filter with
  | Filter.all => true
  | Filter.modified => bool_decide (FileChange.status f = modified)
  | Filter.added =>
      bool_decide (FileChange.status f = added) ||
      bool_decide (FileChange.status f = untracked)
  | Filter.deleted => bool_decide (FileChange.status f = deleted)
  | Filter.staged => FileChange.staged f
  | Filter.unstaged => negb (FileChange.staged f)
  end.

Definition matchesSearch (searchQuery : string) (f : FileChange.t) : bool :=
  JSString.includes (toLowerCase (FileChange.relativePath f))
                    (toLowerCase searchQuery).

Definition getFilteredFiles (state : WebviewState.t) : list FileChange.t :=
  let files :=
    List.filter (matchesFilter (WebviewState.filter state))
                (WebviewState.files state) in
  if String.eqb (WebviewState.searchQuery state) ""
  then files
  else List.filter (matchesSearch (WebviewState.searchQuery state)) files.

(** The folder a file is grouped under. *)
Definition folderOf (file : FileChange.t) : string :=
  let parts := JSString.split JSString.isSlash (FileChange.relativePath file) in
  if Nat.ltb 1 (length parts)
  then JSString.join "/" (JSString.dropLast parts)
  else "(root)".

(** [if (!groups.has(folder)) groups.set(folder, []);
     groups.get(folder)!.push(file)] on a [Map] kept in insertion order. *)
Fixpoint pushToGroup (folder : string) (file : FileChange.t)
    (groups : list (string * list FileChange.t))
  : list (string * list FileChange.t) :=
  match groups with
  | [] => [(folder, [file])]
  | (key, members) :: rest =>
      if String.eqb key folder
      then (key, members ++ [file]) :: rest
      else (key, members) :: pushToGroup folder file rest
  end.

(** [groups.get(folder)], the empty list standing for [undefined]. *)
Fixpoint membersOf (folder : string)
    (groups : list (string * list FileChange.t)) : list FileChange.t :=
  match groups with
  | [] => []
  | (key, members) :: rest =>
      if String.eqb key folder then members else membersOf folder rest
  end.

Definition getGroupedFiles (state : WebviewState.t)
  : list (string * list FileChange.t) :=
  let files := getFilteredFiles state in
  if negb (WebviewState.groupByFolder state)
  then [("", files)]
  else foldl (λ groups file, pushToGroup (folderOf file) file groups)
             [] files.

(** [fileName] of [renderFileItem]:
    [relativePath.split('/').pop() || relativePath]. *)
Definition fileNameOf (file : FileChange.t) : string :=
  JSString.orDefault
    (last (JSString.split JSString.isSlash (FileChange.relativePath file)))
    (FileChange.relativePath file).

(** [selectAll]; the state update, without [saveState] and [render]. *)
Definition selectAll (state : WebviewState.t) : WebviewState.t :=
  WebviewState.withSelection state
    (foldl (λ selected file, setAdd (FileChange.path file) selected)
           (WebviewState.selectedFiles state)
           (getFilteredFiles state))
    (WebviewState.commitMessages state).

(** The three loops of the [changedFiles] case. *)
Definition autoSelect (files : list FileChange.t)
    (messages : gmap string string) (selected : list string) : list string :=
  foldl (λ selected file,
           if bool_decide (is_Some (messages !! FileChange.path file))
           then selected
           else setAdd (FileChange.path file) selected)
        selected files.

Definition pruneSelection (filePaths : list string) (selected : list string)
  : list string :=
  foldl (λ selected path,
           if bool_decide (path ∈ filePaths) then selected
           else setDelete path selected)
        selected selected.

Definition pruneMessages (filePaths : list string)
    (messages : gmap string string) : gmap string string :=
  foldl (λ messages path,
           if bool_decide (path ∈ filePaths) then messages
           else delete path messages)
        messages (map_to_list messages).*1.

(** [handleMessage]; the state update, without [saveState] and [render].
    A message of a type the [switch] has no case for changes nothing. *)
Definition handleMessage (message : ExtensionMessage)
    (state : WebviewState.t) : WebviewState.t :=
  match message with
  | MsgChangedFiles files repoInfo templates settings =>
      let filePaths := FileChange.path <$> files in
      let selected :=
        pruneSelection filePaths
          (autoSelect files (WebviewState.commitMessages state)
                      (WebviewState.selectedFiles state)) in
      let messages :=
        pruneMessages filePaths (WebviewState.commitMessages state) in
      WebviewState.mk files repoInfo (AppState.mk selected messages)
        false None
        (default [] templates)
        (default (Settings.mk false true) settings)
        (WebviewState.filter state) (WebviewState.searchQuery state)
        (WebviewState.groupByFolder state)
  | MsgCommitResult result =>
      if Nat.ltb 0 (BulkCommitResultInfo.successful result)
      then WebviewState.withSelection state [] ∅
      else state
  | MsgError message =>
      WebviewState.mk (WebviewState.files state) (WebviewState.repoInfo state)
        (WebviewState.selection state) false (Some message)
        (WebviewState.templates state) (WebviewState.settings state)
        (WebviewState.filter state) (WebviewState.searchQuery state)
        (WebviewState.groupByFolder state)
  | MsgLoading loading =>
      WebviewState.mk (WebviewState.files state) (WebviewState.repoInfo state)
        (WebviewState.selection state) loading (WebviewState.error state)
        (WebviewState.templates state) (WebviewState.settings state)
        (WebviewState.filter state) (WebviewState.searchQuery state)
        (WebviewState.groupByFolder state)
  | MsgTemplates _ => state
  | MsgApplyTemplate template =>
      WebviewState.withSelection state
        (WebviewState.selectedFiles state)
        (AppState.commitMessages
           (applyTemplateToSelected template (WebviewState.selection state)))
  end.

(** [this.state.commitMessages.get(path)?.trim()]; [None] is [undefined]. *)
Definition trimmedMessage (state : WebviewState.t) (path : string)
  : option string :=
  JSString.trim isWhiteSpace <$> (WebviewState.commitMessages state !! path).

(** Truthiness of an optional string. *)
Definition truthy (x : option string) : bool :=
  match x with
  | Some s => negb (String.eqb s "")
  | None => false
  end.

(** [handleCommit]: the message posted to the extension, if any. *)
Definition handleCommit (state : WebviewState.t) : option WebviewMessage :=
  let filteredFiles := getFilteredFiles state in
  let commits :=
    foldl (λ commits path,
             match trimmedMessage state path with
             | Some message =>
                 if negb (String.eqb message "") && listed path filteredFiles
                 then commits ++ [CommitTask.mk path message]
                 else commits
             | None => commits
             end)
          [] (WebviewState.selectedFiles state) in
  if Nat.eqb (length commits) 0 then None
  else Some (CmdCommitFiles commits).

(** The two counts of [render] and [updateCommitButton]. *)
Definition selectedCount (state : WebviewState.t) : nat :=
  length (List.filter (λ path, listed path (getFilteredFiles state))
                      (WebviewState.selectedFiles state)).

Definition readyToCommit (state : WebviewState.t) : nat :=
  length
    (List.filter (λ path, listed path (getFilteredFiles state))
       (List.filter (λ path, truthy (trimmedMessage state path))
          (WebviewState.selectedFiles state))).

(** [btn.disabled = readyToCommit === 0] *)
Definition commitButtonDisabled (state : WebviewState.t) : bool :=
  Nat.eqb (readyToCommit state) 0.

End Webview.

(** ** The editor host: notifications, the webview channel, the user *)

Inductive Notification : Type :=
| InformationMessage (text : string)
| WarningMessage (text : string)
| ErrorMessage (text : string).

(** What the extension does to its surroundings besides the calls of
    [GitBackend]: messages posted to the webview, notifications shown,
    modal questions with the user's answer, and calls of [GitRemote]. *)
Inductive HostEvent : Type :=
| Posted (message : ExtensionMessage)
| Notified (notification : Notification)
| Asked (prompt : string) (answer : option string)
| RemoteCall (member : string) (settled : option Thrown).

Module Host.
(** The backend state [git] with the log of host events. *)
Record t (W : Type) : Type := mk { git : W; log : list HostEvent }.
Arguments mk {W} git log.
Arguments git {W} _.
Arguments log {W} _.
End Host.

(** The backend seen through the host: the same answers, the log kept. *)
Definition onGit {W R : Type} (op : W → W * R) (h : Host.t W)
  : Host.t W * R :=
  let '(g, r) := op (Host.git h) in (Host.mk g (Host.log h), r).

(** The same for [GitRemote], each call logged. *)
Definition onRemote {W : Type} (member : string)
    (op : W → W * option Thrown) (h : Host.t W) : Host.t W * option Thrown :=
  let '(g, r) := op (Host.git h) in
  (Host.mk g (Host.log h ++ [RemoteCall member r]), r).

#[global] Instance Host_backend {W : Type} `{GitBackend W}
  : GitBackend (Host.t W) := {
  repository_add := λ repository paths, onGit (repository_add repository paths);
  repository_commit :=
    λ repository message, onGit (repository_commit repository message);
  repository_log :=
    λ repository maxEntries, onGit (repository_log repository maxEntries);
  executeCommand := λ command, onGit (executeCommand command)
}.

#[global] Instance Host_remote {W : Type} `{GitRemote W}
  : GitRemote (Host.t W) := {
  repository_revert :=
    λ repository paths, onRemote "revert" (repository_revert repository paths);
  repository_push := λ repository, onRemote "push" (repository_push repository);
  repository_pull := λ repository, onRemote "pull" (repository_pull repository);
  repository_fetch :=
    λ repository, onRemote "fetch" (repository_fetch repository);
  repository_diffWithHEAD :=
    λ repository filePath, onGit (repository_diffWithHEAD repository filePath)
}.

Module Extension.
(** What the surroundings supply: the service as it reads in a backend
    state (the extension's API object is live), the editor window, the
    [gittoys] configuration and the user's answer to a modal question. *)
Record t (W : Type) : Type := mk {
  service : W → GitService.t;
  window : Window.t;
  templates : list CommitTemplate.t;
  pushAfterCommit : bool;
  confirmBeforeCommit : bool;
  answer : string → option string
}.
Arguments mk {W} _ _ _ _ _ _.
Arguments service {W} _ _.
Arguments window {W} _.
Arguments templates {W} _.
Arguments pushAfterCommit {W} _.
Arguments confirmBeforeCommit {W} _.
Arguments answer {W} _ _.
End Extension.

(** [`${x}`] for an optional string. *)
Definition interpolate (x : option string) : string :=
  default "undefined" x.

Section HostCalls.
Context {W : Type} `{GitBackend W} `{GitRemote W}.

Definition emit {A : Type} (event : HostEvent) (a : A)
  : Async (Host.t W) A :=
  λ w, (World.mk (Host.mk (Host.git (World.backend w))
                          (Host.log (World.backend w) ++ [event]))
                 (World.trace w),
        Fulfilled a).

(** [this._postMessage(message)] *)
Definition postMessage (message : ExtensionMessage) : Async (Host.t W) unit :=
  emit (Posted message) tt.

Definition showInformationMessage (text : string) : Async (Host.t W) unit :=
  emit (Notified (InformationMessage text)) tt.

Definition showWarningMessage (text : string) : Async (Host.t W) unit :=
  emit (Notified (WarningMessage text)) tt.

Definition showErrorMessage (text : string) : Async (Host.t W) unit :=
  emit (Notified (ErrorMessage text)) tt.

(** [await vscode.window.showWarningMessage(text, { modal: true }, item)] *)
Definition askModal (env : Extension.t W) (prompt : string)
  : Async (Host.t W) (option string) :=
  emit (Asked prompt (Extension.answer env prompt))
       (Extension.answer env prompt).

(** [try { body } finally { finalizer }] *)
Definition tryFinally {A : Type} (body : Async (Host.t W) A)
    (finalizer : Async (Host.t W) unit) : Async (Host.t W) A :=
  λ w, let '(w1, r) := body w in
       match finalizer w1 with
       | (w2, Fulfilled _) => (w2, r)
       | (w2, Rejected e) => (w2, Rejected e)
       end.

(** A member of [this._gitService], read in the current state. *)
Definition withService {A : Type} (env : Extension.t W)
    (member : GitService.t → Window.t → Async (Host.t W) A)
  : Async (Host.t W) A :=
  λ w, member (Extension.service env (Host.git (World.backend w)))
              (Extension.window env) w.

(** A promise that is already settled. *)
Definition settled {A : Type} (r : Settled A) : Async (Host.t W) A :=
  λ w, (w, r).

(** ** The panel ([BulkCommitPanel]) *)

Definition _sendChangedFiles (env : Extension.t W) : Async (Host.t W) unit :=
  tryFinally
    (tryCatch
       (postMessage (MsgLoading true);;
        files ← withService env
                  (λ this window, settled (getChangedFiles this window None));
        repoInfo ← withService env
                     (λ this window, ret (getRepositoryInfo this window None));
        postMessage
          (MsgChangedFiles files repoInfo
             (Some (Extension.templates env))
             (Some (Settings.mk (Extension.pushAfterCommit env)
                                (Extension.confirmBeforeCommit env)))))
       (λ error, postMessage (MsgError (errorMessage error))))
    (postMessage (MsgLoading false)).

Definition _pushAfterCommit (env : Extension.t W) : Async (Host.t W) unit :=
  result ← withService env (λ this window, push this window None);
  if OperationResult.success result
  then showInformationMessage "GitToys: Push successful"
  else showErrorMessage
         ("GitToys: Push failed - " +:+
          interpolate (OperationResult.error result)).

(** [commits.filter(c => c.message.trim().length > 0)] *)
Definition validCommits `{TextRuntime} (commits : list CommitTask.t)
  : list CommitTask.t :=
  List.filter
    (λ c, Nat.ltb 0
            (String.length
               (JSString.trim isWhiteSpace (CommitTask.message c))))
    commits.

(** The summary posted after a batch. *)
Definition resultInfo (result : BulkCommitResult.t) : BulkCommitResultInfo.t :=
  BulkCommitResultInfo.mk
    (length (BulkCommitResult.successful result))
    (length (BulkCommitResult.failed result))
    (BulkCommitResult.totalCommits result)
    ((λ f, CommitResult.filePath f +:+ ": " +:+
           interpolate (CommitResult.error f))
       <$> BulkCommitResult.failed result).

Definition _commitFiles `{TextRuntime} (env : Extension.t W)
    (commits : list CommitTask.t) : Async (Host.t W) unit :=
  if Nat.eqb (length commits) 0
  then showWarningMessage "No files selected for commit."
  else
    confirmed ←
      (if Extension.confirmBeforeCommit env
       then
         confirm ← askModal env
                     ("Create " +:+ pretty (length commits) +:+ " commit(s)?");
         ret (bool_decide (confirm = Some "Commit"))
       else ret true);
    if negb confirmed then ret tt
    else
      let validCommits := validCommits commits in
      if Nat.eqb (length validCommits) 0
      then showWarningMessage "All selected files need commit messages."
      else
        tryFinally
          (tryCatch
             (postMessage (MsgLoading true);;
              result ← withService env
                         (λ this window,
                            bulkCommit this window validCommits None);
              postMessage (MsgCommitResult (resultInfo result));;
              (if Nat.ltb 0 (length (BulkCommitResult.successful result))
               then
                 showInformationMessage
                   ("GitToys: Successfully created " +:+
                    pretty (length (BulkCommitResult.successful result)) +:+
                    " commit(s).");;
                 (if Extension.pushAfterCommit env
                  then _pushAfterCommit env else ret tt)
               else ret tt);;
              (if Nat.ltb 0 (length (BulkCommitResult.failed result))
               then
                 showErrorMessage
                   ("GitToys: Failed to commit " +:+
                    pretty (length (BulkCommitResult.failed result)) +:+
                    " file(s).")
               else ret tt);;
              _sendChangedFiles env)
             (λ error,
                postMessage (MsgError (errorMessage error));;
                showErrorMessage ("GitToys: " +:+ errorMessage error)))
          (postMessage (MsgLoading false)).

(** ** The push command ([gittoys.pushChanges]) *)


End HostCalls.

(** ** The quick-actions view and the status bar *)

Module QuickActionItem.
(** The constructor's arguments and the [command] it attaches. *)
Record t : Type := mk {
  label : string;
  description : string;
  commandId : option string;
  iconName : string;
  disabled : bool;
  command : option string
}.
End QuickActionItem.

(** [new QuickActionItem(...)]: the command is attached only to an item
    with a command id that is not disabled. *)
Definition newQuickActionItem (label description : string)
    (commandId : option string) (iconName : string) (disabled : bool)
  : QuickActionItem.t :=
  QuickActionItem.mk label description commandId iconName disabled
    (match commandId with
     | Some id => if bool_decide (id ≠ "") && negb disabled
                  then Some id else None
     | None => None
     end).

(** [getChildren()] of the quick-actions view, at the root. *)
Definition getChildren (this : GitService.t) (window : Window.t)
  : list QuickActionItem.t :=
  let syncStatus := getSyncStatus this window None in
  let changesCount := getChangesCount this window None in
  match getRepositoryInfo this window None with
  | None =>
      [newQuickActionItem "No repository"
         "Open a folder with a Git repository" None "warning" true]
  | Some _ =>
      [newQuickActionItem "Push"
         (match syncStatus with
          | Some st =>
              if Z.ltb 0 (SyncStatus.ahead st)
              then pretty (SyncStatus.ahead st) +:+ " commit(s) to push"
              else "Up to date"
          | None => "Up to date"
          end)
         (Some "gittoys.pushChanges") "cloud-upload"
         (match syncStatus with
          | Some st => Z.eqb (SyncStatus.ahead st) 0
          | None => false
          end);
       newQuickActionItem "Pull"
         (match syncStatus with
          | Some st =>
              if Z.ltb 0 (SyncStatus.behind st)
              then pretty (SyncStatus.behind st) +:+ " commit(s) to pull"
              else "Up to date"
          | None => "Up to date"
          end)
         (Some "gittoys.pullChanges") "cloud-download" false;
       newQuickActionItem "Bulk Commit"
         (if Nat.ltb 0 (ChangesCount.total changesCount)
          then pretty (ChangesCount.total changesCount) +:+ " file(s) changed"
          else "No changes")
         (Some "gittoys.openBulkCommit") "git-commit"
         (Nat.eqb (ChangesCount.total changesCount) 0);
       newQuickActionItem "Undo Last Commit"
         "Soft reset to previous state"
         (Some "gittoys.undoLastCommit") "discard" false]
  end.

(** ** Observations on the host log *)

(** The messages posted to the webview, in order. *)
Definition postedMessages (log : list HostEvent) : list ExtensionMessage :=
  omap (λ ev, match ev with Posted m => Some m | _ => None end) log.

(** The calls of [GitRemote] members, in order. *)
Definition remoteCalls (log : list HostEvent)
  : list (string * option Thrown) :=
  omap (λ ev, match ev with
              | RemoteCall member r => Some (member, r)
              | _ => None
              end) log.

(** The notifications shown, in order. *)
Definition notifications (log : list HostEvent) : list Notification :=
  omap (λ ev, match ev with Notified n => Some n | _ => None end) log.

(** The user lets a batch of [n] requests go ahead: no confirmation is
    configured, or the answer to the question is [Commit]. *)
Definition goesAhead {W : Type} (env : Extension.t W) (n : nat) : bool :=
  negb (Extension.confirmBeforeCommit env) ||
  bool_decide
    (Extension.answer env ("Create " +:+ pretty n +:+ " commit(s)?")
     = Some "Commit").

(** ** Sample surroundings for the statements below *)

Module Demo.

(** White space and lower case over ASCII. *)
Definition asciiWhiteSpace (a : ascii) : bool :=
  let n := Ascii.nat_of_ascii a in
  Nat.eqb n 32 || (Nat.leb 9 n && Nat.leb n 13).

Definition asciiLower (a : ascii) : ascii :=
  let n := Ascii.nat_of_ascii a in
  if Nat.leb 65 n && Nat.leb n 90 then Ascii.ascii_of_nat (n + 32) else a.

Fixpoint lower (s : string) : string :=
  match s with
  | EmptyString => EmptyString
  | String a s' => String (asciiLower a) (lower s')
  end.

#[global] Instance runtime : TextRuntime := {
  isWhiteSpace := asciiWhiteSpace;
  toLowerCase := lower
}.

(** The scripted backend with a network that is up or down. *)
Record Net : Type := net { local : Sim.t; online : bool }.

Definition onLocal {R : Type} (op : Sim.t → Sim.t * R) (n : Net) : Net * R :=
  let '(s, r) := op (local n) in (net s (online n), r).

Definition overNetwork (n : Net) : Net * option Thrown :=
  if online n then (n, None)
  else (n, Some (ErrorObject "could not resolve host")).

#[global] Instance netBackend : GitBackend Net := {
  repository_add := λ _ paths, onLocal (Sim.add paths);
  repository_commit := λ _ message, onLocal (Sim.commit message);
  repository_log := λ _ maxEntries, onLocal (Sim.log maxEntries);
  executeCommand := λ command, onLocal (Sim.command command)
}.

#[global] Instance netRemote : GitRemote Net := {
  repository_revert :=
    λ _ paths n,
      (net (Sim.mk (Sim.commits (local n))
                   (List.filter (λ p, negb (bool_decide (p ∈ paths)))
                                (Sim.index (local n)))
                   (Sim.unstageable (local n))
                   (Sim.rejectedMessages (local n))
                   (Sim.resetRejected (local n)))
           (online n), None);
  repository_push := λ _, overNetwork;
  repository_pull := λ _, overNetwork;
  repository_fetch := λ _, overNetwork;
  repository_diffWithHEAD :=
    λ _ filePath n,
      (n, if bool_decide (filePath ∈ Sim.unstageable (local n))
          then Rejected (NonError "no such path")
          else Fulfilled ("diff --git " +:+ filePath))
}.

Definition offline : World.t Net :=
  World.mk (net (Sim.mk [] [] [] [] false) false) [].

Definition onlineWorld : World.t Net :=
  World.mk (net (Sim.mk [] [] [] [] false) true) [].

(** A service whose extension knows one repository. *)
Definition serviceOf (repository : Repository.t) : GitService.t :=
  GitService.mk (Some (API.mk [repository] (λ _, None))).

Definition project : Repository.t :=
  Repository.mk (Sim.file "C:\work\project")
    (RepositoryState.mk (Some Sim.localBranch) Sim.wtSample Sim.idxSample).

Definition entry (relativePath : string) (status : FileStatus)
    (staged : bool) : FileChange.t :=
  FileChange.mk ("/w/" +:+ relativePath) relativePath status staged
                ("file:///w/" +:+ relativePath).

Definition listing : list FileChange.t :=
  [entry "src/a.ts" modified false; entry "README.md" added true;
   entry "src/b.ts" deleted true; entry "docs/x/y.md" modified false].

Definition stateOf (selected : list string) (messages : gmap string string)
    (filter : Filter.t) (searchQuery : string) (groupByFolder : bool)
  : WebviewState.t :=
  WebviewState.mk listing None (AppState.mk selected messages) false None []
    (Settings.mk false true) filter searchQuery groupByFolder.

(** Three files selected; one message is blank, one file has none. *)
Definition drafting : WebviewState.t :=
  stateOf ["/w/src/a.ts"; "/w/README.md"; "/w/src/b.ts"]
    (<["/w/src/a.ts" := "  fix a "]> (<["/w/README.md" := "   "]> ∅))
    Filter.all "" true.

(** The host of the scripted backend, answering every question with
    [Commit]. *)
Definition hostWorld (s : Sim.t) : World.t (Host.t Net) :=
  World.mk (Host.mk (net s true) []) [].

Definition extension (confirmBeforeCommit pushAfterCommit : bool)
    (answer : option string) : Extension.t Net :=
  Extension.mk (λ _, serviceOf Sim.emptyRepo) Sim.noEditor []
    pushAfterCommit confirmBeforeCommit (λ _, answer).

(** Five requests, two of them without a message. *)
Definition fiveRequests : list CommitTask.t :=
  [CommitTask.mk "a.txt" "add a"; CommitTask.mk "b.txt" "";
   CommitTask.mk "c.txt" "add c"; CommitTask.mk "d.txt" "   ";
   CommitTask.mk "e.txt" "add e"].

End Demo.

(** * Properties *)

(** ** Reconciliation of the two change lists *)

Section Reconcile.
Implicit Types (p q root : string) (c : Change.t) (e : FileChange.t).
Implicit Types (changes : list FileChange.t) (wt idx : list Change.t).

Lemma markStaged_idemp e : markStaged (markStaged e) = markStaged e.
Proof. reflexivity. Qed.

Lemma markStaged_toFileChange root b c :
  markStaged (toFileChange root b c) = toFileChange root true c.
Proof. reflexivity. Qed.

Lemma findIndex_cons q e changes :
  findIndex q (e :: changes) =
    if decide (FileChange.path e = q) then Some 0
    else S <$> findIndex q changes.
Proof.
  unfold findIndex; cbn [list_find].
  destruct (decide (FileChange.path e = q)); [done|].
  destruct (list_find _ changes) as [[i x]|]; done.
Qed.

Lemma findIndex_None q changes :
  findIndex q changes = None ↔ entriesFor q changes = [].
Proof.
  induction changes as [|e changes IH]; [done|].
  rewrite findIndex_cons. unfold entriesFor in *. rewrite filter_cons.
  destruct (decide (FileChange.path e = q)); [done|].
  rewrite <- IH. by destruct (findIndex q changes).
Qed.

(** Where [findIndex] finds the path, the assignment marks the first of
    its entries and no other. *)
Lemma entriesFor_alter p q i changes :
  findIndex q changes = Some i →
  entriesFor p (alter markStaged i changes) =
    if decide (q = p)
    then match entriesFor p changes with
         | [] => []
         | e :: es => markStaged e :: es
         end
    else entriesFor p changes.
Proof.
  revert i. induction changes as [|x changes IH]; intros i; [done|].
  rewrite findIndex_cons. unfold entriesFor in *.
  destruct (decide (FileChange.path x = q)) as [Hx|Hx].
  - intros [= <-]. cbn [alter list_alter]. rewrite !filter_cons. cbn.
    destruct (decide (q = p)), (decide (FileChange.path x = p));
      congruence.
  - destruct (findIndex q changes) as [j|] eqn:Hj; [|done].
    intros [= <-]. cbn [alter list_alter]. rewrite !filter_cons.
    specialize (IH j eq_refl). cbn [alter] in IH. rewrite IH.
    destruct (decide (q = p)), (decide (FileChange.path x = p));
      congruence.
Qed.

(** One iteration of the index loop, seen from path [p]. *)
Lemma entriesFor_foldIndexChange root p changes c :
  entriesFor p (foldIndexChange root changes c) =
    if decide (Uri.fsPath (Change.uri c) = p)
    then match entriesFor p changes with
         | [] => [toFileChange root true c]
         | e :: es => markStaged e :: es
         end
    else entriesFor p changes.
Proof.
  unfold foldIndexChange.
  destruct (findIndex _ changes) as [i|] eqn:Hi.
  - rewrite (entriesFor_alter _ _ _ _ Hi).
    destruct (decide (_ = p)) as [<-|]; [|done].
    destruct (entriesFor _ changes) eqn:He; [|done].
    apply findIndex_None in He. congruence.
  - apply findIndex_None in Hi. unfold entriesFor in *.
    rewrite filter_app, filter_cons, filter_nil. cbn.
    destruct (decide (_ = p)) as [<-|].
    + by rewrite Hi.
    + by rewrite app_nil_r.
Qed.

Lemma changesFor_cons p c idx :
  changesFor p (c :: idx) =
    if decide (Uri.fsPath (Change.uri c) = p)
    then c :: changesFor p idx else changesFor p idx.
Proof. unfold changesFor. by rewrite filter_cons. Qed.

(** The whole index loop, seen from path [p]: the first index change for
    [p] decides, later ones change nothing more. *)
Lemma entriesFor_foldl root p idx changes :
  entriesFor p (foldl (foldIndexChange root) changes idx) =
    match changesFor p idx, entriesFor p changes with
    | [], es => es
    | c0 :: _, [] => [toFileChange root true c0]
    | _ :: _, e :: es => markStaged e :: es
    end.
Proof.
  revert changes. induction idx as [|c idx IH]; intros changes; cbn [foldl].
  { by destruct (entriesFor p changes). }
  rewrite IH, entriesFor_foldIndexChange, changesFor_cons.
  destruct (decide (_ = p)); [|done].
  destruct (changesFor p idx), (entriesFor p changes); done.
Qed.

Lemma entriesFor_seed root b p wt :
  entriesFor p (toFileChange root b <$> wt) =
    toFileChange root b <$> changesFor p wt.
Proof.
  induction wt as [|c wt IH]; [done|].
  rewrite changesFor_cons. unfold entriesFor in *.
  rewrite fmap_cons, filter_cons. cbn [toFileChange FileChange.path].
  destruct (decide (_ = p)); by rewrite IH.
Qed.

(** The entries of [reconcile] for one path, in closed form. *)
Lemma entriesFor_reconcile root wt idx p :
  entriesFor p (reconcile root wt idx) =
    match changesFor p idx, changesFor p wt with
    | [], cs => toFileChange root false <$> cs
    | c0 :: _, [] => [toFileChange root true c0]
    | _ :: _, c :: cs =>
        toFileChange root true c :: (toFileChange root false <$> cs)
    end.
Proof.
  unfold reconcile. rewrite entriesFor_foldl, entriesFor_seed.
  destruct (changesFor p idx), (changesFor p wt); done.
Qed.

Lemma changesFor_nil p wt : changesFor p wt = [] ↔ p ∉ changePaths wt.
Proof.
  unfold changePaths. induction wt as [|c wt IH].
  { split; [intros _; apply not_elem_of_nil|done]. }
  rewrite fmap_cons, changesFor_cons, not_elem_of_cons.
  destruct (decide (_ = p)) as [Heq|Hne]; [split; [done|]|].
  - intros [Hp _]. by destruct Hp.
  - rewrite IH. split; [|tauto]. intros Hp. split; [congruence|done].
Qed.

Lemma changesFor_elem_of p c wt :
  c ∈ changesFor p wt ↔ c ∈ wt ∧ Uri.fsPath (Change.uri c) = p.
Proof. unfold changesFor. rewrite list_elem_of_filter. tauto. Qed.

Lemma changesFor_NoDup p wt :
  NoDup (changePaths wt) → p ∈ changePaths wt →
  ∃ c, changesFor p wt = [c].
Proof.
  unfold changePaths. induction wt as [|c wt IH].
  { intros _ H; by apply elem_of_nil in H. }
  rewrite fmap_cons, NoDup_cons, changesFor_cons. intros [Hc Hnd] Hp.
  destruct (decide (_ = p)) as [<-|Hne].
  - apply changesFor_nil in Hc. rewrite Hc. eauto.
  - apply elem_of_cons in Hp as [?|Hp]; [congruence|]. by apply IH.
Qed.

Lemma entriesFor_elem_of p e changes :
  e ∈ entriesFor p changes ↔ e ∈ changes ∧ FileChange.path e = p.
Proof. unfold entriesFor. rewrite list_elem_of_filter. tauto. Qed.

End Reconcile.

Lemma getChangedFiles_bound this window repo repository :
  boundRepository this window repo = Some repository →
  getChangedFiles this window repo =
    Fulfilled
      (reconcile (Uri.fsPath (Repository.rootUri repository))
         (RepositoryState.workingTreeChanges (Repository.state repository))
         (RepositoryState.indexChanges (Repository.state repository))).
Proof. unfold getChangedFiles. by intros ->. Qed.

(** Every output entry comes from a change of one of the two lists. *)
Lemma reconcile_path_origin root wt idx e :
  e ∈ reconcile root wt idx →
  FileChange.path e ∈ changePaths wt ∨ FileChange.path e ∈ changePaths idx.
Proof.
  intros He.
  assert (e ∈ entriesFor (FileChange.path e) (reconcile root wt idx)) as Hin
    by by apply entriesFor_elem_of.
  rewrite entriesFor_reconcile in Hin.
  destruct (changesFor _ idx) as [|c0 idx'] eqn:Hidx.
  - left. apply dec_stable. intros Hn. apply changesFor_nil in Hn.
    rewrite Hn in Hin. by apply elem_of_nil in Hin.
  - right. apply dec_stable. intros Hn. apply changesFor_nil in Hn. congruence.
Qed.

Lemma NoDup_by_entries (changes : list FileChange.t) :
  (∀ p, (length (entriesFor p changes) ≤ 1)%nat) →
  NoDup (FileChange.path <$> changes).
Proof.
  induction changes as [|e changes IH]; intros Hle; [constructor|].
  rewrite fmap_cons. constructor.
  - intros Hin. apply list_elem_of_fmap in Hin as (e' & Hpath & Hin).
    specialize (Hle (FileChange.path e)). unfold entriesFor in Hle.
    rewrite filter_cons_True in Hle by done.
    assert (e' ∈ filter (λ c, FileChange.path c = FileChange.path e) changes)
      as Hf by (apply list_elem_of_filter; done).
    destruct (filter _ changes); [by apply elem_of_nil in Hf|].
    cbn in Hle. lia.
  - apply IH. intros p. specialize (Hle p). unfold entriesFor in *.
    rewrite filter_cons in Hle. destruct (decide _); cbn in Hle; lia.
Qed.

(** C4 (as stated).  The working-tree loop pushes one entry per change and
    never looks for an earlier one, so a path listed twice among the
    working-tree changes is reported twice. *)
Lemma reconcile_repeats_working_tree_path :
  length (entriesFor "/w/a.txt" (reconcile "/w" Sim.wtRepeated [])) = 2 ∧
  ¬ NoDup (FileChange.path <$> reconcile "/w" Sim.wtRepeated []).
Proof.
  split; [reflexivity|].
  intros Hnd. apply NoDup_cons in Hnd as [Hnotin _].
  apply Hnotin. vm_compute. left.
Qed.

(** C4 (amended).  When no path is repeated within the working-tree list,
    every path of either list has exactly one entry in the unified output,
    whatever the index list repeats; the output has no two entries with the
    same path and no entry for any other path. *)
Theorem reconcile_one_entry_per_path root wt idx :
  NoDup (changePaths wt) →
  (∀ p, p ∈ changePaths wt ∨ p ∈ changePaths idx →
        length (entriesFor p (reconcile root wt idx)) = 1) ∧
  NoDup (FileChange.path <$> reconcile root wt idx) ∧
  (∀ e, e ∈ reconcile root wt idx →
        FileChange.path e ∈ changePaths wt ∨
        FileChange.path e ∈ changePaths idx).
Proof.
  intros Hnd.
  assert (∀ p, length (entriesFor p (reconcile root wt idx)) =
               if decide (p ∈ changePaths wt ∨ p ∈ changePaths idx)
               then 1 else 0) as Hcount.
  { intros p. rewrite entriesFor_reconcile.
    destruct (decide (p ∈ changePaths wt)) as [Hwt|Hwt].
    - destruct (changesFor_NoDup p wt Hnd Hwt) as [c ->].
      rewrite decide_True by auto. by destruct (changesFor p idx).
    - pose proof Hwt as Hwt'. apply changesFor_nil in Hwt' as ->.
      destruct (changesFor p idx) as [|c0 idx'] eqn:Hidx.
      + apply changesFor_nil in Hidx. rewrite decide_False by tauto. done.
      + rewrite decide_True; [done|]. right. apply dec_stable. intros Hn.
        apply changesFor_nil in Hn. congruence. }
  split; [|split].
  - intros p Hp. rewrite Hcount. by rewrite decide_True.
  - apply NoDup_by_entries. intros p. rewrite Hcount.
    destruct (decide _); lia.
  - intros e. apply reconcile_path_origin.
Qed.

Lemma reconcile_one_entry_per_path_witness :
  NoDup (changePaths Sim.wtSample) ∧
  length (entriesFor "/w/c.txt"
            (reconcile "/w" Sim.wtSample Sim.idxSample)) = 1 ∧
  NoDup (FileChange.path <$> reconcile "/w" Sim.wtSample Sim.idxSample).
Proof.
  assert (NoDup (changePaths Sim.wtSample)) as Hnd by compute_done.
  destruct (reconcile_one_entry_per_path "/w" Sim.wtSample Sim.idxSample Hnd)
    as (Hone & Hnodup & _).
  split; [exact Hnd|]. split; [|exact Hnodup].
  apply Hone. right. compute_done.
Defined.

(** C5 (as stated).  With the path listed twice among the working-tree
    changes and once in the index, only the first of its two entries is
    marked: the output holds an entry for the path with [staged = false]. *)
Lemma reconcile_leaves_repeated_entry_unstaged :
  "/w/a.txt" ∈ changePaths Sim.wtRepeated ∧
  "/w/a.txt" ∈ changePaths [Sim.change "/w/a.txt" INDEX_MODIFIED] ∧
  ∃ e, e ∈ reconcile "/w" Sim.wtRepeated
             [Sim.change "/w/a.txt" INDEX_MODIFIED] ∧
       FileChange.path e = "/w/a.txt" ∧ FileChange.staged e = false.
Proof.
  split; [compute_done|]. split; [compute_done|].
  exists (toFileChange "/w" false (Sim.change "/w/a.txt" DELETED)).
  split; [|done]. vm_compute. right. left.
Qed.

(** The first entry of a path present in both lists, on any input: it is
    staged and built from the path's first working-tree change; the later
    working-tree changes of the path keep their unstaged entries. *)
Lemma reconcile_both_lists root wt idx p :
  p ∈ changePaths wt → p ∈ changePaths idx →
  ∃ c cs, changesFor p wt = c :: cs ∧
          entriesFor p (reconcile root wt idx) =
            toFileChange root true c :: (toFileChange root false <$> cs).
Proof.
  intros Hwt Hidx. rewrite entriesFor_reconcile.
  destruct (changesFor p wt) as [|c cs] eqn:Hc.
  { apply changesFor_nil in Hc. done. }
  destruct (changesFor p idx) eqn:Hi.
  { apply changesFor_nil in Hi. done. }
  eauto.
Qed.

(** C5 (amended).  For a path listed exactly once among the working-tree
    changes, by the change [c], and present in the index list, the unified
    output has a single entry for the path; it has [staged = true] and the
    classification of [c], the working-tree status, not the index's. *)
Theorem reconcile_both_lists_staged root wt idx p c :
  changesFor p wt = [c] →
  p ∈ changePaths idx →
  ∃ e, entriesFor p (reconcile root wt idx) = [e] ∧
       FileChange.path e = p ∧
       FileChange.staged e = true ∧
       FileChange.status e = convertStatus (Change.status c).
Proof.
  intros Hc Hidx.
  assert (p ∈ changePaths wt) as Hwt.
  { apply dec_stable. intros Hn. apply changesFor_nil in Hn. congruence. }
  destruct (reconcile_both_lists root wt idx p Hwt Hidx) as (c' & cs & Hcs & ->).
  rewrite Hc in Hcs. injection Hcs as <- <-.
  eexists. split; [reflexivity|]. split; [|done].
  assert (c ∈ changesFor p wt) as Hin by (rewrite Hc; left).
  by apply changesFor_elem_of in Hin as [_ ?].
Qed.

Lemma reconcile_both_lists_staged_witness :
  changesFor "/w/a.txt" Sim.wtSample = [Sim.change "/w/a.txt" MODIFIED] ∧
  "/w/a.txt" ∈ changePaths Sim.idxSample ∧
  ∃ e, entriesFor "/w/a.txt" (reconcile "/w" Sim.wtSample Sim.idxSample)
         = [e] ∧
       FileChange.path e = "/w/a.txt" ∧
       FileChange.staged e = true ∧
       FileChange.status e = convertStatus MODIFIED.
Proof.
  split; [reflexivity|].
  assert ("/w/a.txt" ∈ changePaths Sim.idxSample) as Hidx by compute_done.
  split; [exact Hidx|].
  exact (reconcile_both_lists_staged "/w" Sim.wtSample Sim.idxSample
           "/w/a.txt" (Sim.change "/w/a.txt" MODIFIED) eq_refl Hidx).
Defined.

(** ** Classification of conflict codes *)

(** The codes [convertStatus] sends to [conflicted] are exactly the seven
    merge codes. *)
Lemma convertStatus_conflicted status :
  convertStatus status = conflicted ↔
  status ∈ [ADDED_BY_US; ADDED_BY_THEM; DELETED_BY_US; DELETED_BY_THEM;
            BOTH_ADDED; BOTH_DELETED; BOTH_MODIFIED].
Proof.
  split.
  - destruct status; cbn; intros ?; try discriminate;
      repeat (first [left | right]).
  - intros H. repeat (apply elem_of_cons in H as [->|H]; [reflexivity|]).
    by apply elem_of_nil in H.
Qed.

(** The first entry of a path takes its classification from the first
    change recorded for the path, working-tree list first. *)
Lemma reconcile_first_classification root wt idx p :
  FileChange.status <$> head (entriesFor p (reconcile root wt idx)) =
  (λ c, convertStatus (Change.status c)) <$>
    head (changesFor p wt ++ changesFor p idx).
Proof.
  rewrite entriesFor_reconcile.
  destruct (changesFor p idx), (changesFor p wt); done.
Qed.

(** C6 (as stated).  A path modified in the working tree whose index change
    carries the modify/modify code is reported as [modified]: none of its
    entries is [conflicted]. *)
Lemma reconcile_conflict_code_not_prioritised :
  bothSidesTouched BOTH_MODIFIED = true ∧
  changesFor "/w/a.txt" [Sim.change "/w/a.txt" BOTH_MODIFIED] =
    [Sim.change "/w/a.txt" BOTH_MODIFIED] ∧
  FileChange.status <$>
    entriesFor "/w/a.txt"
      (reconcile "/w" [Sim.change "/w/a.txt" MODIFIED]
                      [Sim.change "/w/a.txt" BOTH_MODIFIED]) = [modified].
Proof. split; [reflexivity|]. split; reflexivity. Qed.

(** C6 (amended).  Every "both sides touched" code is classified
    [conflicted].  In the unified output the first entry of a path is
    [conflicted] exactly when the first change recorded for the path, the
    working-tree one if there is any and the index one otherwise, carries
    one of the merge codes; a code on a later change does not override it.
    In particular a path whose index change carries such a code and that has
    no working-tree change is reported [conflicted]. *)
Theorem conflict_classification :
  (∀ status, bothSidesTouched status = true →
             convertStatus status = conflicted) ∧
  (∀ root wt idx p e c,
     head (entriesFor p (reconcile root wt idx)) = Some e →
     head (changesFor p wt ++ changesFor p idx) = Some c →
     (FileChange.status e = conflicted ↔
      convertStatus (Change.status c) = conflicted)) ∧
  (∀ root wt idx p c,
     p ∉ changePaths wt →
     head (changesFor p idx) = Some c →
     bothSidesTouched (Change.status c) = true →
     ∃ e, entriesFor p (reconcile root wt idx) = [e] ∧
          FileChange.status e = conflicted).
Proof.
  assert (∀ status, bothSidesTouched status = true →
                    convertStatus status = conflicted) as Hboth
    by (intros status; destruct status; done).
  split; [exact Hboth|]. split.
  - intros root wt idx p e c He Hc.
    pose proof (reconcile_first_classification root wt idx p) as Hfirst.
    rewrite He, Hc in Hfirst. cbn in Hfirst. injection Hfirst as ->. done.
  - intros root wt idx p c Hwt Hc Hcode.
    rewrite entriesFor_reconcile.
    apply changesFor_nil in Hwt as ->.
    destruct (changesFor p idx) as [|c0 cs]; [done|].
    injection Hc as ->. eexists. split; [reflexivity|]. by apply Hboth.
Qed.

Lemma conflict_classification_witness :
  bothSidesTouched BOTH_ADDED = true ∧
  convertStatus BOTH_ADDED = conflicted ∧
  ∃ e, entriesFor "/w/m.txt"
         (reconcile "/w" Sim.wtSample [Sim.change "/w/m.txt" BOTH_ADDED])
       = [e] ∧ FileChange.status e = conflicted.
Proof.
  split; [reflexivity|].
  split; [exact (proj1 conflict_classification BOTH_ADDED eq_refl)|].
  refine (proj2 (proj2 conflict_classification) "/w" Sim.wtSample
            [Sim.change "/w/m.txt" BOTH_ADDED] "/w/m.txt"
            (Sim.change "/w/m.txt" BOTH_ADDED) _ eq_refl eq_refl).
  compute_done.
Defined.

(** ** Queries without a repository *)

(** When [getActiveRepository] finds nothing: the service never initialised,
    or the extension knows no repository. *)
Lemma getActiveRepository_None this window :
  getActiveRepository this window = None ↔
  GitService.api this = None ∨
  ∃ api, GitService.api this = Some api ∧ API.repositories api = [].
Proof.
  unfold getActiveRepository.
  destruct (GitService.api this) as [api|]; [|naive_solver].
  destruct (API.repositories api) eqn:Hr.
  - split; [|done]. intros _. right. eauto.
  - split.
    + destruct (Window.activeTextEditor window); [|done].
      by destruct (API.getRepository api _).
    + intros [?|(api' & [= <-] & ?)]; congruence.
Qed.

(** C10.  With no repository passed and none active, [getChangedFiles]
    fulfils with the empty list; it does not reject. *)
Theorem getChangedFiles_no_repository this window :
  getActiveRepository this window = None →
  getChangedFiles this window None = Fulfilled [].
Proof.
  intros Hnone. unfold getChangedFiles, boundRepository, orElse.
  by rewrite Hnone.
Qed.

Lemma getChangedFiles_no_repository_witness :
  getActiveRepository Sim.unbound Sim.noEditor = None ∧
  getChangedFiles Sim.unbound Sim.noEditor None = Fulfilled [].
Proof.
  split; [reflexivity|].
  exact (getChangedFiles_no_repository Sim.unbound Sim.noEditor eq_refl).
Defined.

(** ** Sync status *)

Lemma orZero_nonneg (x : option Z) :
  (∀ n, x = Some n → (0 ≤ n)%Z) → (0 ≤ orZero x)%Z.
Proof.
  intros Hx. destruct x as [n|]; cbn; [|lia].
  destruct (Z.eqb_spec n 0); [lia|]. by apply Hx.
Qed.

Lemma orZero_Some (n : Z) : orZero (Some n) = n.
Proof. cbn. destruct (Z.eqb_spec n 0); congruence. Qed.

(** C7 (as stated).  The guard tests the repository and its [HEAD], not the
    upstream: a [HEAD] that tracks no upstream branch still gets a result,
    with both counts defaulted to 0. *)
Lemma getSyncStatus_present_without_upstream :
  Branch.upstream Sim.localBranch = None ∧
  getSyncStatus Sim.unbound Sim.noEditor
    (Some (Sim.repo (Some Sim.localBranch) [] []))
  = Some (SyncStatus.mk 0 0).
Proof. split; reflexivity. Qed.

(** C7 (amended).  [getSyncStatus] returns the absent value exactly when no
    repository is bound or the bound repository has no [HEAD].  With a
    [HEAD] the result is present, whether or not an upstream is configured:
    [ahead] and [behind] are the recorded counts, a missing count read as 0,
    so they are non-negative whenever the recorded counts are, and a branch
    two commits ahead and none behind yields [{ahead: 2, behind: 0}]. *)
Theorem getSyncStatus_spec this window repo :
  (getSyncStatus this window repo = None ↔
   boundRepository this window repo = None ∨
   ∃ repository, boundRepository this window repo = Some repository ∧
                 RepositoryState.HEAD (Repository.state repository) = None) ∧
  (∀ repository head,
     boundRepository this window repo = Some repository →
     RepositoryState.HEAD (Repository.state repository) = Some head →
     ∃ st, getSyncStatus this window repo = Some st ∧
           SyncStatus.ahead st = default 0%Z (Branch.ahead head) ∧
           SyncStatus.behind st = default 0%Z (Branch.behind head) ∧
           ((∀ n, Branch.ahead head = Some n → (0 ≤ n)%Z) →
            (0 ≤ SyncStatus.ahead st)%Z) ∧
           ((∀ n, Branch.behind head = Some n → (0 ≤ n)%Z) →
            (0 ≤ SyncStatus.behind st)%Z) ∧
           (Branch.ahead head = Some 2%Z →
            Branch.behind head = Some 0%Z →
            st = SyncStatus.mk 2 0)).
Proof.
  unfold getSyncStatus. split.
  - destruct (boundRepository this window repo) as [repository|];
      [|naive_solver].
    destruct (RepositoryState.HEAD _) eqn:Hhead; [|naive_solver].
    split; [done|]. intros [?|(r & [= <-] & ?)]; congruence.
  - intros repository head -> ->. eexists. split; [reflexivity|]. cbn.
    repeat split.
    + destruct (Branch.ahead head); [apply orZero_Some|done].
    + destruct (Branch.behind head); [apply orZero_Some|done].
    + apply orZero_nonneg.
    + apply orZero_nonneg.
    + by intros -> ->.
Qed.

Lemma getSyncStatus_spec_witness :
  boundRepository Sim.unbound Sim.noEditor
    (Some (Sim.repo (Some Sim.aheadBranch) [] []))
  = Some (Sim.repo (Some Sim.aheadBranch) [] []) ∧
  ∃ st, getSyncStatus Sim.unbound Sim.noEditor
          (Some (Sim.repo (Some Sim.aheadBranch) [] [])) = Some st ∧
        st = SyncStatus.mk 2 0 ∧
        (0 ≤ SyncStatus.ahead st)%Z ∧ (0 ≤ SyncStatus.behind st)%Z.
Proof.
  split; [reflexivity|].
  destruct (proj2 (getSyncStatus_spec Sim.unbound Sim.noEditor
                     (Some (Sim.repo (Some Sim.aheadBranch) [] [])))
              _ Sim.aheadBranch eq_refl eq_refl)
    as (st & Hst & _ & _ & Hahead & Hbehind & Htwo).
  exists st. split; [exact Hst|]. split; [exact (Htwo eq_refl eq_refl)|].
  split.
  - apply Hahead. intros n [= <-]. lia.
  - apply Hbehind. intros n [= <-]. lia.
Defined.

(** ** The batch of commits *)

Section Batch.
Context {W : Type} `{GitBackend W}.
Implicit Types (w : World.t W) (task : CommitTask.t) (o : TaskOutcome).
Implicit Types (result : BulkCommitResult.t) (repository : Repository.t).

(** One iteration always completes: it stages the task's file, commits
    only if staging resolved, and turns a rejection into a record. *)
Lemma commitTask_run repository result task w :
  ∃ o w',
    commitTask repository result task w =
      (w', Fulfilled (recordOutcome result task o)) ∧
    World.trace w' = World.trace w ++ attemptEvents (task, o).
Proof.
  unfold commitTask, tryCatch, mbind, Async_bind, bind, callAdd, callCommit.
  destruct (repository_add repository _ (World.backend w))
    as [b1 [e1|]] eqn:Hadd; cbn.
  { exists (StageFailed e1). eexists. split; reflexivity. }
  destruct (repository_commit repository _ b1) as [b2 [e2|]] eqn:Hcommit;
    cbn.
  - exists (CommitFailed e2). eexists. split; [reflexivity|].
    cbn. by rewrite <- app_assoc.
  - exists Committed. eexists. split; [reflexivity|].
    cbn. by rewrite <- app_assoc.
Qed.

(** The loop attempts every task, in order, and files each attempt. *)
Lemma commitTasks_run repository tasks result w :
  ∃ attempts w' result',
    attempts.*1 = tasks ∧
    commitTasks repository tasks result w = (w', Fulfilled result') ∧
    World.trace w' = World.trace w ++ (attempts ≫= attemptEvents) ∧
    BulkCommitResult.successful result' =
      BulkCommitResult.successful result ++
      (attemptResult <$> filter (λ a, committed a = true) attempts) ∧
    BulkCommitResult.failed result' =
      BulkCommitResult.failed result ++
      (attemptResult <$> filter (λ a, committed a ≠ true) attempts) ∧
    BulkCommitResult.totalCommits result' =
      BulkCommitResult.totalCommits result.
Proof.
  revert result w. induction tasks as [|task tasks IH]; intros result w.
  { exists [], w, result. cbn. by rewrite !app_nil_r. }
  destruct (commitTask_run repository result task w)
    as (o & w1 & Hstep & Htrace1).
  destruct (IH (recordOutcome result task o) w1)
    as (attempts & w' & result' & Hfst & Hrun & Htrace & Hok & Hko & Htot).
  exists ((task, o) :: attempts), w', result'.
  split; [by rewrite fmap_cons, Hfst|].
  split.
  { cbn [commitTasks]. unfold mbind, Async_bind, bind.
    by rewrite Hstep. }
  split.
  { rewrite Htrace, Htrace1. cbn. by rewrite <- app_assoc. }
  rewrite Hok, Hko, Htot, !filter_cons.
  destruct o; cbn; rewrite <- ?app_assoc; done.
Qed.

Lemma addCalls_attempts (attempts : list (CommitTask.t * TaskOutcome)) :
  addCalls (attempts ≫= attemptEvents) =
    (λ task, [CommitTask.filePath task]) <$> attempts.*1.
Proof.
  unfold addCalls. induction attempts as [|[task o] attempts IH]; [done|].
  rewrite bind_cons, omap_app, IH. by destruct o.
Qed.

Lemma attempts_split (attempts : list (CommitTask.t * TaskOutcome)) :
  length (filter (λ a, committed a = true) attempts) +
  length (filter (λ a, committed a ≠ true) attempts) = length attempts.
Proof.
  induction attempts as [|a attempts IH]; [done|].
  rewrite !filter_cons.
  destruct (decide (committed a = true)), (decide (committed a ≠ true));
    cbn; try lia; done.
Qed.

End Batch.

(** The order property on the sample batch: staging fails for [b.txt] only,
    [a.txt] and [c.txt] are committed, in that order. *)
Example bulkCommit_abc :
  ∃ w' result,
    bulkCommit Sim.unbound Sim.noEditor Sim.abc (Some Sim.emptyRepo)
      Sim.rejectingB = (w', Fulfilled result) ∧
    CommitResult.filePath <$> BulkCommitResult.successful result
      = ["a.txt"; "c.txt"] ∧
    CommitResult.filePath <$> BulkCommitResult.failed result = ["b.txt"] ∧
    BulkCommitResult.totalCommits result = 3 ∧
    addCalls (World.trace w') = [["a.txt"]; ["b.txt"]; ["c.txt"]].
Proof. do 2 eexists. split; [reflexivity|]. repeat split. Qed.

(** C1.  On a bound repository the batch never aborts early: whatever the
    backend answers, [bulkCommit] fulfils (no error escapes), its backend
    calls are the calls of one attempt per task, in input order, each
    attempt staging its own file whether or not earlier attempts failed, and
    every failed attempt is filed in [failed] as a result with
    [success = false] and the error's message. *)
Theorem bulkCommit_never_aborts {W : Type} `{GitBackend W}
    this window tasks repo repository (w : World.t W) :
  boundRepository this window repo = Some repository →
  ∃ attempts w' result,
    attempts.*1 = tasks ∧
    bulkCommit this window tasks repo w = (w', Fulfilled result) ∧
    World.trace w' = World.trace w ++ (attempts ≫= attemptEvents) ∧
    addCalls (attempts ≫= attemptEvents) =
      (λ task, [CommitTask.filePath task]) <$> tasks ∧
    BulkCommitResult.successful result =
      attemptResult <$> filter (λ a, committed a = true) attempts ∧
    BulkCommitResult.failed result =
      attemptResult <$> filter (λ a, committed a ≠ true) attempts ∧
    Forall (λ r, CommitResult.success r = false ∧
                 is_Some (CommitResult.error r))
           (BulkCommitResult.failed result).
Proof.
  intros Hbound. unfold bulkCommit. rewrite Hbound.
  destruct (commitTasks_run repository tasks
              (BulkCommitResult.mk [] [] (length tasks)) w)
    as (attempts & w' & result & Hfst & Hrun & Htrace & Hok & Hko & _).
  exists attempts, w', result. cbn in Hok, Hko.
  repeat split; try done.
  - by rewrite addCalls_attempts, Hfst.
  - rewrite Hko. apply Forall_fmap, Forall_forall.
    intros [task o] Hin%list_elem_of_filter. destruct Hin as [Hne _].
    unfold committed in Hne. cbn in *. destruct o; cbn; eauto; done.
Qed.

Lemma bulkCommit_never_aborts_witness :
  boundRepository Sim.unbound Sim.noEditor (Some Sim.emptyRepo)
    = Some Sim.emptyRepo ∧
  ∃ attempts w' result,
    attempts.*1 = Sim.abc ∧
    bulkCommit Sim.unbound Sim.noEditor Sim.abc (Some Sim.emptyRepo)
      Sim.rejectingB = (w', Fulfilled result) ∧
    World.trace w' =
      World.trace Sim.rejectingB ++ (attempts ≫= attemptEvents) ∧
    addCalls (attempts ≫= attemptEvents) =
      (λ task, [CommitTask.filePath task]) <$> Sim.abc ∧
    BulkCommitResult.successful result =
      attemptResult <$> filter (λ a, committed a = true) attempts ∧
    BulkCommitResult.failed result =
      attemptResult <$> filter (λ a, committed a ≠ true) attempts ∧
    Forall (λ r, CommitResult.success r = false ∧
                 is_Some (CommitResult.error r))
           (BulkCommitResult.failed result).
Proof.
  split; [reflexivity|].
  exact (bulkCommit_never_aborts Sim.unbound Sim.noEditor Sim.abc
           (Some Sim.emptyRepo) Sim.emptyRepo Sim.rejectingB eq_refl).
Defined.

(** C2.  On a bound repository every task lands in exactly one of the two
    lists: [successful.length + failed.length] is the number of tasks, and
    so is [totalCommits], whichever tasks fail. *)
Theorem bulkCommit_accounts_for_every_task {W : Type} `{GitBackend W}
    this window tasks repo repository (w : World.t W) :
  boundRepository this window repo = Some repository →
  ∃ w' result,
    bulkCommit this window tasks repo w = (w', Fulfilled result) ∧
    length (BulkCommitResult.successful result) +
      length (BulkCommitResult.failed result) = length tasks ∧
    BulkCommitResult.totalCommits result = length tasks.
Proof.
  intros Hbound. unfold bulkCommit. rewrite Hbound.
  destruct (commitTasks_run repository tasks
              (BulkCommitResult.mk [] [] (length tasks)) w)
    as (attempts & w' & result & Hfst & Hrun & _ & Hok & Hko & Htot).
  exists w', result. split; [done|]. split; [|done].
  rewrite Hok, Hko. cbn. rewrite !length_fmap, attempts_split.
  by rewrite <- Hfst, length_fmap.
Qed.

Lemma bulkCommit_accounts_for_every_task_witness :
  boundRepository Sim.unbound Sim.noEditor (Some Sim.emptyRepo)
    = Some Sim.emptyRepo ∧
  ∃ w' result,
    bulkCommit Sim.unbound Sim.noEditor Sim.abc (Some Sim.emptyRepo)
      Sim.rejectingB = (w', Fulfilled result) ∧
    length (BulkCommitResult.successful result) +
      length (BulkCommitResult.failed result) = length Sim.abc ∧
    BulkCommitResult.totalCommits result = length Sim.abc.
Proof.
  split; [reflexivity|].
  exact (bulkCommit_accounts_for_every_task Sim.unbound Sim.noEditor Sim.abc
           (Some Sim.emptyRepo) Sim.emptyRepo Sim.rejectingB eq_refl).
Defined.

(** C3.  With no repository passed and none active, [bulkCommit] rejects
    with the error [No repository found] before the loop: the world is the
    one it was called in, so no [add] or [commit] was issued, and no
    [BulkCommitResult] is produced. *)
Theorem bulkCommit_no_repository {W : Type} `{GitBackend W}
    this window tasks repo (w : World.t W) :
  boundRepository this window repo = None →
  bulkCommit this window tasks repo w =
    (w, Rejected (ErrorObject "No repository found")).
Proof. intros Hnone. unfold bulkCommit. by rewrite Hnone. Qed.

Lemma bulkCommit_no_repository_witness :
  boundRepository Sim.unbound Sim.noEditor None = None ∧
  bulkCommit Sim.unbound Sim.noEditor Sim.abc None Sim.rejectingB =
    (Sim.rejectingB, Rejected (ErrorObject "No repository found")).
Proof.
  split; [reflexivity|].
  exact (bulkCommit_no_repository Sim.unbound Sim.noEditor Sim.abc None
           Sim.rejectingB eq_refl).
Defined.

(** ** Undo of the last commit *)

(** C9.  Over a backend whose [log] only reads and whose rejected commands
    change nothing, [undoLastCommit] always fulfils with a result, never a
    rejection.  On a repository whose log is empty the result is
    [{success: false, error: 'No commits to undo'}] and the reset command is
    not issued.  Whenever the result has [success = false] it carries an
    error, no mutating backend call went through, and the repository is in
    the state it was called in. *)
Theorem undoLastCommit_failure {W : Type} `{GitBackend W}
    this window repo (w : World.t W) :
  (∀ repository n b, (repository_log repository n b).1 = b) →
  (∀ command b e, (executeCommand command b).2 = Some e →
                  (executeCommand command b).1 = b) →
  ∃ w' r events,
    undoLastCommit this window repo w = (w', Fulfilled r) ∧
    World.trace w' = World.trace w ++ events ∧
    (∀ repository,
       boundRepository this window repo = Some repository →
       (repository_log repository 1 (World.backend w)).2 = Fulfilled [] →
       r = UndoResult.mk false (Some "No commits to undo") ∧
       events = [EvLog 1 (Fulfilled [])]) ∧
    (UndoResult.success r = false →
       is_Some (UndoResult.error r) ∧
       Forall (λ ev, completedMutation ev = false) events ∧
       World.backend w' = World.backend w).
Proof.
  intros Hlog Hcmd. unfold undoLastCommit.
  destruct (boundRepository this window repo) as [repository|] eqn:Hb.
  2:{ exists w, (UndoResult.mk false (Some "No repository found")), [].
      rewrite app_nil_r. repeat split; eauto; done. }
  unfold tryCatch, mbind, Async_bind, bind, callLog, callCommand.
  pose proof (Hlog repository 1 (World.backend w)) as Hread.
  destruct (repository_log repository 1 (World.backend w))
    as [b1 [commits|e]] eqn:Hl; cbn in Hread; subst b1; cbn.
  - destruct commits as [|commit commits]; cbn.
    + do 3 eexists. split; [reflexivity|]. split; [reflexivity|]. cbn.
      split; [done|]. intros _. split; [eauto|]. split; [|done].
      repeat constructor.
    + pose proof (Hcmd "git.undoCommit" (World.backend w)) as Hkeep.
      destruct (executeCommand "git.undoCommit" (World.backend w))
        as [b2 [e|]] eqn:Hc; cbn in *.
      * do 3 eexists. split; [reflexivity|]. cbn.
        split; [by rewrite <- app_assoc|]. split.
        { intros repository' [= <-]. rewrite Hl. done. }
        intros _. split; [eauto|]. split; [repeat constructor|]. eauto.
      * do 3 eexists. split; [reflexivity|]. cbn.
        split; [by rewrite <- app_assoc|]. split; [|done].
        intros repository' [= <-]. rewrite Hl. done.
  - do 3 eexists. split; [reflexivity|]. split; [reflexivity|]. cbn. split.
    { intros repository' [= <-]. rewrite Hl. done. }
    intros _. split; [eauto|]. split; [|done]. repeat constructor.
Qed.

Lemma Sim_log_reads (repository : Repository.t) (n : nat) (b : Sim.t) :
  (repository_log repository n b).1 = b.
Proof. reflexivity. Qed.

Lemma Sim_rejected_command (command : string) (b : Sim.t) (e : Thrown) :
  (executeCommand command b).2 = Some e → (executeCommand command b).1 = b.
Proof.
  cbn. unfold Sim.command. destruct (bool_decide _); [|done].
  destruct (Sim.commits b); [done|]. by destruct (Sim.resetRejected b).
Qed.

Lemma undoLastCommit_failure_witness :
  ∃ w' r events,
    undoLastCommit Sim.unbound Sim.noEditor (Some Sim.emptyRepo) Sim.fresh
      = (w', Fulfilled r) ∧
    World.trace w' = World.trace Sim.fresh ++ events ∧
    r = UndoResult.mk false (Some "No commits to undo") ∧
    events = [EvLog 1 (Fulfilled [])] ∧
    World.backend w' = World.backend Sim.fresh.
Proof.
  destruct (undoLastCommit_failure Sim.unbound Sim.noEditor
              (Some Sim.emptyRepo) Sim.fresh
              Sim_log_reads Sim_rejected_command)
    as (w' & r & events & Hrun & Htrace & Hzero & Hfail).
  destruct (Hzero Sim.emptyRepo eq_refl eq_refl) as [Hr Hev].
  exists w', r, events.
  split; [exact Hrun|]. split; [exact Htrace|].
  split; [exact Hr|]. split; [exact Hev|].
  apply Hfail. rewrite Hr. reflexivity.
Defined.

(** A rejected reset on a repository with one commit: reported, history
    untouched. *)
Example undoLastCommit_reset_rejected :
  ∃ w',
    undoLastCommit Sim.unbound Sim.noEditor (Some Sim.emptyRepo)
      Sim.resetRejecting
      = (w', Fulfilled (UndoResult.mk false (Some "reset rejected"))) ∧
    World.backend w' = World.backend Sim.resetRejecting.
Proof. eexists. split; reflexivity. Qed.

(** ** Template prefixing *)

Section Template.
Implicit Types (s t current template path p q : string).
Implicit Types (m : gmap string string) (paths : list string).

Lemma startsWith_prepend t s : startsWith (t +:+ s) t = true.
Proof.
  induction t as [|a t IH]; [done|].
  simpl. by rewrite Ascii.eqb_refl.
Qed.

Lemma startsWith_applyTemplate s t : startsWith (applyTemplate s t) t = true.
Proof.
  unfold applyTemplate. destruct (startsWith s t) eqn:Hs; [done|].
  apply startsWith_prepend.
Qed.

Lemma applyTemplate_idemp s t :
  applyTemplate (applyTemplate s t) t = applyTemplate s t.
Proof.
  unfold applyTemplate at 1. by rewrite startsWith_applyTemplate.
Qed.

Lemma currentMessageOf_insert m q p s :
  currentMessageOf (<[q := s]> m) p =
    if decide (q = p) then s else currentMessageOf m p.
Proof.
  unfold currentMessageOf. destruct (decide (q = p)) as [->|Hne].
  - rewrite lookup_insert_eq. destruct (String.eqb_spec s ""); by subst.
  - by rewrite lookup_insert_ne.
Qed.

(** One iteration of [forEach] rewrites the message of its own path by
    [applyTemplate] and leaves the other messages as they read. *)
Lemma currentMessageOf_applyTemplateToPath t m q p :
  currentMessageOf (applyTemplateToPath t m q) p =
    if decide (q = p) then applyTemplate (currentMessageOf m p) t
    else currentMessageOf m p.
Proof.
  unfold applyTemplateToPath, applyTemplate.
  destruct (decide (q = p)) as [->|Hne].
  - destruct (startsWith (currentMessageOf m p) t); cbn; [done|].
    rewrite currentMessageOf_insert. by rewrite decide_True.
  - destruct (startsWith (currentMessageOf m q) t); cbn; [done|].
    rewrite currentMessageOf_insert. by rewrite decide_False.
Qed.

Lemma currentMessageOf_foldl t paths m p :
  currentMessageOf (foldl (applyTemplateToPath t) m paths) p =
    if decide (p ∈ paths) then applyTemplate (currentMessageOf m p) t
    else currentMessageOf m p.
Proof.
  revert m. induction paths as [|q paths IH]; intros m; cbn [foldl].
  { rewrite decide_False; [done|]. apply not_elem_of_nil. }
  rewrite IH, currentMessageOf_applyTemplateToPath.
  destruct (decide (q = p)) as [->|Hne].
  - rewrite (decide_True (P := p ∈ p :: paths)) by left.
    destruct (decide (p ∈ paths)); [apply applyTemplate_idemp|done].
  - destruct (decide (p ∈ paths)) as [Hin|Hnin].
    + rewrite decide_True; [done|]. by right.
    + rewrite decide_False; [done|].
      rewrite not_elem_of_cons. split; [congruence|done].
Qed.

(** A pass over paths whose messages already start with the template
    writes nothing. *)
Lemma applyTemplate_settled t paths m :
  (∀ p, p ∈ paths → startsWith (currentMessageOf m p) t = true) →
  foldl (applyTemplateToPath t) m paths = m.
Proof.
  induction paths as [|q paths IH]; intros Hall; [done|].
  cbn [foldl]. unfold applyTemplateToPath at 2.
  rewrite (Hall q) by left. cbn. apply IH.
  intros p Hp. apply Hall. by right.
Qed.

End Template.

(** C8.  [applyTemplate] returns [current] when [current] starts with
    [template] and [template + current] otherwise, and applying it twice
    with the same template is applying it once.  It is what
    [applyTemplateToSelected] does to the message of every selected path
    (the other messages read as before), whose second run with the same
    template leaves the state as the first run left it. *)
Theorem applyTemplate_idempotent_prepend :
  (∀ current template,
     applyTemplate current template =
       if startsWith current template then current
       else template +:+ current) ∧
  (∀ s t, applyTemplate (applyTemplate s t) t = applyTemplate s t) ∧
  (∀ template state path,
     currentMessageOf
       (AppState.commitMessages (applyTemplateToSelected template state))
       path =
     if decide (path ∈ AppState.selectedFiles state)
     then applyTemplate
            (currentMessageOf (AppState.commitMessages state) path) template
     else currentMessageOf (AppState.commitMessages state) path) ∧
  (∀ template state,
     applyTemplateToSelected template
       (applyTemplateToSelected template state) =
     applyTemplateToSelected template state).
Proof.
  split; [done|]. split; [apply applyTemplate_idemp|]. split.
  - intros template state path. apply currentMessageOf_foldl.
  - intros template state. unfold applyTemplateToSelected. cbn. f_equal.
    apply applyTemplate_settled. intros p Hp.
    rewrite currentMessageOf_foldl, decide_True by done.
    apply startsWith_applyTemplate.
Qed.

(** The prefix is added once: a second application finds it in place. *)
Example applyTemplate_feat :
  applyTemplate "fix typo" "feat: " = "feat: fix typo" ∧
  applyTemplate "feat: fix typo" "feat: " = "feat: fix typo".
Proof. split; reflexivity. Qed.

(** * Further properties *)

(** ** Strings *)

Section Strings.
Implicit Types (s t : string) (a c : ascii) (p : ascii → bool).

Lemma append_cons a s t : String a s +:+ t = String a (s +:+ t).
Proof. reflexivity. Qed.

Lemma append_nil t : "" +:+ t = t.
Proof. reflexivity. Qed.

Lemma chars_app s t :
  JSString.chars (s +:+ t) = JSString.chars s ++ JSString.chars t.
Proof.
  induction s as [|a s IH]; [done|]. rewrite append_cons. simpl.
  by rewrite IH.
Qed.

Lemma split_nonempty p s : JSString.split p s ≠ [].
Proof.
  destruct s as [|a s]; [done|]. simpl.
  destruct (p a); [done|]. by destruct (JSString.split p s).
Qed.

Lemma split_cons_sep p a s :
  p a = true → JSString.split p (String a s) = "" :: JSString.split p s.
Proof. intros Ha. simpl. by rewrite Ha. Qed.

Lemma split_cons_other p a s :
  p a = false →
  ∃ part parts, JSString.split p s = part :: parts ∧
                JSString.split p (String a s) = String a part :: parts.
Proof.
  intros Ha. simpl. rewrite Ha.
  destruct (JSString.split p s) as [|part parts] eqn:Hs.
  { by apply split_nonempty in Hs. }
  eauto.
Qed.

(** Without a separator the string is its only part. *)
Lemma split_no_separator p s :
  Forall (λ a, p a = false) (JSString.chars s) → JSString.split p s = [s].
Proof.
  induction s as [|a s IH]; [done|]. simpl. intros Hall.
  apply Forall_cons in Hall as [Ha Hs]. by rewrite Ha, IH.
Qed.

(** No part holds a separator. *)
Lemma split_parts_clean p s :
  Forall (λ part, Forall (λ a, p a = false) (JSString.chars part))
         (JSString.split p s).
Proof.
  induction s as [|a s IH]; simpl.
  { repeat constructor. }
  destruct (p a) eqn:Ha.
  - constructor; [constructor|done].
  - destruct (JSString.split p s) as [|part parts]; simpl.
    + repeat constructor. done.
    + apply Forall_cons in IH as [Hpart Hparts].
      constructor; [|done]. simpl. by constructor.
Qed.

(** The parts after the last separator. *)
Lemma split_app_separator p s c t :
  p c = true →
  JSString.split p (s +:+ String c t) =
    JSString.split p s ++ JSString.split p t.
Proof.
  intros Hc. induction s as [|a s IH].
  { rewrite append_nil. simpl. by rewrite Hc. }
  rewrite append_cons. simpl. rewrite IH. destruct (p a); [done|].
  destruct (JSString.split p s) as [|part parts] eqn:Hs; [|done].
  by apply split_nonempty in Hs.
Qed.

Lemma split_length p s :
  length (JSString.split p s) =
    S (length (List.filter p (JSString.chars s))).
Proof.
  induction s as [|a s IH]; [done|]. simpl.
  destruct (p a); simpl; [by rewrite IH|].
  destruct (JSString.split p s) as [|part parts] eqn:Hs; [|done].
  by apply split_nonempty in Hs.
Qed.

Lemma join_cons sep part parts :
  parts ≠ [] →
  JSString.join sep (part :: parts) =
    part +:+ sep +:+ JSString.join sep parts.
Proof. by destruct parts. Qed.

Lemma append_assoc s t u : (s +:+ t) +:+ u = s +:+ (t +:+ u).
Proof.
  induction s as [|a s IH]; [done|]. rewrite !append_cons. by rewrite IH.
Qed.

Lemma join_snoc sep parts part :
  parts ≠ [] →
  JSString.join sep (parts ++ [part]) =
    JSString.join sep parts +:+ sep +:+ part.
Proof.
  induction parts as [|x parts IH]; [done|]. intros _.
  destruct parts as [|y parts]; [done|].
  change ((x :: y :: parts) ++ [part]) with (x :: ((y :: parts) ++ [part])).
  rewrite !join_cons by done. rewrite IH by done.
  by rewrite !append_assoc.
Qed.

(** Joining the parts with the separator gives the string back. *)
Lemma join_split c s :
  JSString.join (String c "") (JSString.split (Ascii.eqb c) s) = s.
Proof.
  induction s as [|a s IH]; [done|].
  destruct (Ascii.eqb c a) eqn:Ha.
  - rewrite split_cons_sep by done. rewrite join_cons by apply split_nonempty.
    rewrite IH. apply Ascii.eqb_eq in Ha as ->. done.
  - destruct (split_cons_other (Ascii.eqb c) a s Ha)
      as (part & parts & Hs & ->).
    rewrite Hs in IH. destruct parts as [|y parts]; simpl in *.
    + by rewrite IH.
    + by rewrite <- IH.
Qed.

Lemma isSlash_eqb a : JSString.isSlash a = Ascii.eqb "/" a.
Proof. unfold JSString.isSlash. apply Ascii.eqb_sym. Qed.

Lemma split_ext p q s :
  (∀ a, p a = q a) → JSString.split p s = JSString.split q s.
Proof.
  intros Hpq. induction s as [|a s IH]; [done|]. simpl. by rewrite Hpq, IH.
Qed.

Lemma dropLast_snoc {A : Type} (l : list A) (x : A) :
  JSString.dropLast (l ++ [x]) = l.
Proof.
  unfold JSString.dropLast. rewrite length_app. simpl.
  replace (length l + 1 - 1) with (length l) by lia.
  by rewrite take_app_length.
Qed.

(** [trim]: what is left has no white space at either end, and trimming
    again changes nothing. *)
Lemma trimStart_head p s :
  JSString.trimStart p s = "" ∨
  ∃ a t, JSString.trimStart p s = String a t ∧ p a = false.
Proof.
  induction s as [|a s IH]; [by left|]. simpl.
  destruct (p a) eqn:Ha; [done|]. right. eauto.
Qed.

Lemma trimStart_fixed p a t :
  p a = false → JSString.trimStart p (String a t) = String a t.
Proof. intros Ha. simpl. by rewrite Ha. Qed.

Lemma trimEnd_head p a t :
  p a = false → ∃ u, JSString.trimEnd p (String a t) = String a u.
Proof.
  intros Ha. simpl. rewrite Ha.
  destruct (JSString.trimEnd p t); eauto.
Qed.

Lemma trimEnd_idemp p s :
  JSString.trimEnd p (JSString.trimEnd p s) = JSString.trimEnd p s.
Proof.
  induction s as [|a s IH]; [done|]. simpl.
  destruct (JSString.trimEnd p s) as [|b u] eqn:Hs.
  - destruct (p a) eqn:Ha; [done|]. simpl. by rewrite Ha.
  - remember (String b u) as kept. simpl. rewrite IH.
    subst kept. done.
Qed.

Lemma trim_idemp p s :
  JSString.trim p (JSString.trim p s) = JSString.trim p s.
Proof.
  unfold JSString.trim.
  destruct (trimStart_head p s) as [->|(a & t & -> & Ha)]; [done|].
  destruct (trimEnd_head p a t Ha) as [u Hu]. rewrite Hu.
  rewrite trimStart_fixed by done. rewrite <- Hu. apply trimEnd_idemp.
Qed.

End Strings.

(** ** The change-set query, continued *)

(** Every entry is the literal built from one backend change. *)
Lemma reconcile_entry_form root wt idx e :
  e ∈ reconcile root wt idx →
  ∃ c b, (c ∈ wt ∨ c ∈ idx) ∧ e = toFileChange root b c.
Proof.
  intros He.
  assert (e ∈ entriesFor (FileChange.path e) (reconcile root wt idx)) as Hin
    by by apply entriesFor_elem_of.
  rewrite entriesFor_reconcile in Hin.
  set (p := FileChange.path e) in *.
  assert (∀ b cs, e ∈ toFileChange root b <$> cs → cs ⊆ changesFor p wt →
                  ∃ c b, (c ∈ wt ∨ c ∈ idx) ∧ e = toFileChange root b c)
    as Hmap.
  { intros b cs (c & -> & Hc)%list_elem_of_fmap Hsub.
    exists c, b. split; [|done]. left.
    apply Hsub, changesFor_elem_of in Hc. tauto. }
  destruct (changesFor p idx) as [|c0 idx'] eqn:Hidx.
  { by apply (Hmap false (changesFor p wt)). }
  assert (c0 ∈ idx) as Hc0.
  { assert (c0 ∈ changesFor p idx) as H0 by (rewrite Hidx; left).
    apply changesFor_elem_of in H0. tauto. }
  destruct (changesFor p wt) as [|c cs] eqn:Hwt.
  - apply list_elem_of_singleton in Hin. eauto.
  - apply elem_of_cons in Hin as [->|Hin].
    + exists c, true. split; [|done]. left.
      assert (c ∈ changesFor p wt) as H1 by (rewrite Hwt; left).
      apply changesFor_elem_of in H1. tauto.
    + apply (Hmap false cs Hin). intros x Hx. by right.
Qed.

Lemma replaceBackslashes_clean s :
  "\"%char ∉ JSString.chars (replaceBackslashes s).
Proof.
  induction s as [|a s IH]; simpl; [apply not_elem_of_nil|].
  apply not_elem_of_cons. split; [|done].
  destruct (Ascii.eqb_spec a "\"); [done|congruence].
Qed.

(** X1.  A path made of the root, one character and a rest is shown as the
    rest, whatever that character is, with every backslash turned into a
    slash; no relative path holds a backslash; and every entry of the
    unified list carries the relative path of its own path. *)
Theorem getRelativePath_spec :
  (∀ root c rest,
     getRelativePath (root +:+ String c rest) root = replaceBackslashes rest) ∧
  (∀ absolutePath rootPath,
     "\"%char ∉ JSString.chars (getRelativePath absolutePath rootPath)) ∧
  (∀ root wt idx e,
     e ∈ reconcile root wt idx →
     FileChange.relativePath e = getRelativePath (FileChange.path e) root).
Proof.
  split; [|split].
  - intros root c rest. unfold getRelativePath.
    rewrite startsWith_prepend.
    replace (String.length root + 1) with (S (String.length root)) by lia.
    f_equal. revert c rest. induction root as [|a root IH]; intros c rest.
    + by destruct rest.
    + apply (IH c rest).
  - intros absolutePath rootPath. unfold getRelativePath.
    destruct (startsWith _ _); apply replaceBackslashes_clean.
  - intros root wt idx e (c & b & _ & ->)%reconcile_entry_form. done.
Qed.

(** X2.  No status code is classified [untracked]: an untracked file is
    reported as [added], and no entry of the unified list is [untracked]. *)
Theorem never_untracked :
  (∀ status, convertStatus status ≠ untracked) ∧
  convertStatus UNTRACKED = added ∧
  (∀ root wt idx e,
     e ∈ reconcile root wt idx → FileChange.status e ≠ untracked).
Proof.
  assert (∀ status, convertStatus status ≠ untracked) as Hnever
    by (intros status; destruct status; done).
  split; [done|]. split; [done|].
  intros root wt idx e (c & b & _ & ->)%reconcile_entry_form. apply Hnever.
Qed.

(** X3.  When no path is repeated within the working-tree list, an entry of
    the unified list is staged exactly when its path is in the index
    list. *)
Theorem staged_iff_in_index root wt idx e :
  NoDup (changePaths wt) →
  e ∈ reconcile root wt idx →
  (FileChange.staged e = true ↔ FileChange.path e ∈ changePaths idx).
Proof.
  intros Hnd He.
  assert (e ∈ entriesFor (FileChange.path e) (reconcile root wt idx)) as Hin
    by by apply entriesFor_elem_of.
  rewrite entriesFor_reconcile in Hin.
  set (p := FileChange.path e) in *.
  assert (changesFor p wt = [] ∨ ∃ c, changesFor p wt = [c]) as Hwt.
  { destruct (decide (p ∈ changePaths wt)) as [Hp|Hp].
    - right. by apply changesFor_NoDup.
    - left. by apply changesFor_nil. }
  destruct (changesFor p idx) as [|c0 idx'] eqn:Hidx.
  - assert (p ∉ changePaths idx) as Hnot by by apply changesFor_nil.
    apply list_elem_of_fmap in Hin as (c & -> & _). split; [done|tauto].
  - assert (p ∈ changePaths idx) as Hyes.
    { apply dec_stable. intros Hn. apply changesFor_nil in Hn. congruence. }
    destruct Hwt as [Hw|[c Hw]]; rewrite Hw in Hin;
      apply list_elem_of_singleton in Hin; by subst e.
Qed.

Lemma staged_iff_in_index_witness :
  NoDup (changePaths Sim.wtSample) ∧
  toFileChange "/w" false (Sim.change "/w/b.txt" UNTRACKED)
    ∈ reconcile "/w" Sim.wtSample Sim.idxSample ∧
  ("/w/b.txt" ∉ changePaths Sim.idxSample).
Proof.
  assert (NoDup (changePaths Sim.wtSample)) as Hnd by compute_done.
  assert (toFileChange "/w" false (Sim.change "/w/b.txt" UNTRACKED)
            ∈ reconcile "/w" Sim.wtSample Sim.idxSample) as Hin.
  { vm_compute. right. left. }
  split; [exact Hnd|]. split; [exact Hin|].
  intros Hidx.
  pose proof (proj2 (staged_iff_in_index "/w" Sim.wtSample Sim.idxSample
                       _ Hnd Hin) Hidx) as Hstaged.
  discriminate Hstaged.
Defined.

(** The index loop keeps the entries it finds, in place, staging some, and
    appends staged entries for new paths. *)
Lemma foldIndexChange_keeps root changes c :
  ∃ front back,
    foldIndexChange root changes c = front ++ back ∧
    Forall2 (λ e e', e' = e ∨ e' = markStaged e) changes front ∧
    Forall (λ e, FileChange.staged e = true ∧
                 FileChange.path e ∉ FileChange.path <$> changes) back.
Proof.
  unfold foldIndexChange.
  destruct (findIndex _ changes) as [i|] eqn:Hi.
  - exists (alter markStaged i changes), []. rewrite app_nil_r.
    split; [done|]. split; [|constructor].
    clear Hi. revert i. induction changes as [|e changes IH]; intros i.
    { constructor. }
    destruct i as [|i]; simpl.
    + constructor; [by right|]. apply Forall2_same_length_lookup.
      split; [done|]. intros j x y Hx Hy. left. congruence.
    + constructor; [by left|]. apply IH.
  - exists changes, [toFileChange root true c]. split; [done|]. split.
    + apply Forall2_same_length_lookup. split; [done|].
      intros j x y Hx Hy. left. congruence.
    + constructor; [|constructor]. split; [done|].
      apply findIndex_None in Hi. intros Hin.
      apply list_elem_of_fmap in Hin as (e & Hpath & He).
      assert (e ∈ entriesFor (Uri.fsPath (Change.uri c)) changes) as Hc.
      { apply entriesFor_elem_of. split; [done|]. symmetry. exact Hpath. }
      rewrite Hi in Hc. by apply elem_of_nil in Hc.
Qed.

Lemma markStaged_related_path (changes front : list FileChange.t) :
  Forall2 (λ e e', e' = e ∨ e' = markStaged e) changes front →
  FileChange.path <$> front = FileChange.path <$> changes ∧
  FileChange.status <$> front = FileChange.status <$> changes.
Proof.
  induction 1 as [|e e' changes front [->| ->] _ [IHp IHs]]; [done|..];
    rewrite !fmap_cons, IHp, IHs; done.
Qed.

Lemma foldl_foldIndexChange_keeps root idx changes :
  ∃ front back,
    foldl (foldIndexChange root) changes idx = front ++ back ∧
    Forall2 (λ e e', e' = e ∨ e' = markStaged e) changes front ∧
    Forall (λ e, FileChange.staged e = true ∧
                 FileChange.path e ∉ FileChange.path <$> changes) back.
Proof.
  revert changes. induction idx as [|c idx IH]; intros changes; cbn [foldl].
  { exists changes, []. rewrite app_nil_r. split; [done|].
    split; [|constructor]. apply Forall2_same_length_lookup.
    split; [done|]. intros j x y Hx Hy. left. congruence. }
  destruct (foldIndexChange_keeps root changes c)
    as (front1 & back1 & Hstep & Hfront1 & Hback1).
  destruct (IH (foldIndexChange root changes c))
    as (front & back & Hrun & Hfront & Hback).
  rewrite Hstep in Hfront, Hback.
  apply Forall2_app_inv_l in Hfront
    as (front2 & back2 & Hfront2 & Hback2 & ->).
  exists front2, (back2 ++ back). split; [by rewrite Hrun, app_assoc|].
  split.
  - clear -Hfront1 Hfront2. revert front2 Hfront2.
    induction Hfront1 as [|e e1 changes front1 He _ IH]; intros front2 H2.
    { by apply Forall2_nil_inv_l in H2 as ->. }
    apply Forall2_cons_inv_l in H2 as (e2 & front2' & He2 & H2 & ->).
    constructor; [|by apply IH].
    destruct He as [->| ->], He2 as [->| ->]; auto.
  - pose proof (markStaged_related_path _ _ Hfront1) as [Hp1 _].
    apply Forall_app. split.
    + clear -Hback1 Hback2. revert back2 Hback2.
      induction Hback1 as [|e back1 [Hs Hp] _ IH]; intros back2 H2.
      { apply Forall2_nil_inv_l in H2 as ->. constructor. }
      apply Forall2_cons_inv_l in H2 as (e2 & back2' & He2 & H2 & ->).
      constructor; [|by apply IH].
      destruct He2 as [->| ->]; done.
    + eapply Forall_impl; [exact Hback|]. intros e [Hs Hp]. split; [done|].
      intros Hin. apply Hp. rewrite fmap_app, Hp1. apply elem_of_app. by left.
Qed.

(** X4.  The unified list starts with one entry per working-tree change, in
    the backend's order, with that change's path and classification; what
    follows are staged entries for paths that only the index lists. *)
Theorem reconcile_order root wt idx :
  ∃ front back,
    reconcile root wt idx = front ++ back ∧
    (FileChange.path <$> front) = changePaths wt ∧
    (FileChange.status <$> front) =
      ((λ c, convertStatus (Change.status c)) <$> wt) ∧
    Forall (λ e, FileChange.staged e = true ∧
                 (FileChange.path e ∉ changePaths wt) ∧
                 (FileChange.path e ∈ changePaths idx)) back.
Proof.
  unfold reconcile.
  destruct (foldl_foldIndexChange_keeps root idx (toFileChange root false <$> wt))
    as (front & back & Hrun & Hfront & Hback).
  exists front, back. split; [done|].
  destruct (markStaged_related_path _ _ Hfront) as [Hp Hs].
  assert (FileChange.path <$> (toFileChange root false <$> wt) = changePaths wt)
    as Hseed.
  { unfold changePaths. rewrite <- list_fmap_compose. done. }
  split; [by rewrite Hp|]. split.
  { rewrite Hs, <- list_fmap_compose. done. }
  apply Forall_forall. intros e He.
  pose proof (proj1 (Forall_forall _ _) Hback e He) as [Hstaged Hpath].
  rewrite Hseed in Hpath. split; [done|]. split; [done|].
  assert (e ∈ reconcile root wt idx) as Hin.
  { unfold reconcile. rewrite Hrun. apply elem_of_app. by right. }
  destruct (reconcile_path_origin root wt idx e Hin); [done|done].
Qed.

Lemma foldIndexChange_length root changes c :
  length changes ≤ length (foldIndexChange root changes c) ∧
  length (foldIndexChange root changes c) ≤ S (length changes).
Proof.
  unfold foldIndexChange. destruct (findIndex _ changes).
  - rewrite length_alter. lia.
  - rewrite length_app. simpl. lia.
Qed.

Lemma reconcile_length root wt idx :
  length wt ≤ length (reconcile root wt idx) ∧
  length (reconcile root wt idx) ≤ length wt + length idx.
Proof.
  unfold reconcile.
  assert (∀ changes,
            length changes ≤ length (foldl (foldIndexChange root) changes idx) ∧
            length (foldl (foldIndexChange root) changes idx)
              ≤ length changes + length idx) as Hfold.
  { induction idx as [|c idx IH]; intros changes; cbn [foldl]; simpl.
    { lia. }
    destruct (IH (foldIndexChange root changes c)) as [Hlo Hhi].
    destruct (foldIndexChange_length root changes c) as [Hlo1 Hhi1]. lia. }
  specialize (Hfold (toFileChange root false <$> wt)).
  by rewrite length_fmap in Hfold.
Qed.

Lemma reconcile_nil root wt idx :
  reconcile root wt idx = [] ↔ wt = [] ∧ idx = [].
Proof.
  split; [|by intros [-> ->]]. intros Hnil.
  pose proof (reconcile_length root wt idx) as [Hlo _].
  rewrite Hnil in Hlo. simpl in Hlo.
  destruct wt as [|c wt]; [|simpl in Hlo; lia]. split; [done|].
  destruct idx as [|c idx]; [done|]. exfalso.
  pose proof (entriesFor_reconcile root [] (c :: idx)
                (Uri.fsPath (Change.uri c))) as Hentries.
  rewrite Hnil, changesFor_cons, decide_True in Hentries by done.
  discriminate Hentries.
Qed.

(** X5.  The changes count adds the two backend lists, so it counts a file
    with staged and unstaged changes twice: the unified list is never
    shorter than the unstaged count nor longer than the total, and it is
    empty exactly when [hasChanges] is false, that is when the total is 0. *)
Theorem changes_count_bounds this window repo :
  ∃ files,
    getChangedFiles this window repo = Fulfilled files ∧
    ChangesCount.unstaged (getChangesCount this window repo) ≤ length files ∧
    length files ≤ ChangesCount.total (getChangesCount this window repo) ∧
    (hasChanges this window repo = false ↔ files = []) ∧
    (hasChanges this window repo = false ↔
     ChangesCount.total (getChangesCount this window repo) = 0).
Proof.
  unfold getChangedFiles, getChangesCount, hasChanges.
  destruct (boundRepository this window repo) as [repository|].
  2:{ exists []. simpl. repeat split; done || lia. }
  set (wt := RepositoryState.workingTreeChanges (Repository.state repository)).
  set (idx := RepositoryState.indexChanges (Repository.state repository)).
  eexists. split; [reflexivity|]. simpl.
  pose proof (reconcile_length (Uri.fsPath (Repository.rootUri repository))
                wt idx) as [Hlo Hhi].
  split; [done|]. split; [lia|].
  rewrite reconcile_nil. rewrite orb_false_iff, !Nat.ltb_ge.
  split; (split; [intros [Hw Hi]|]).
  - destruct wt, idx; simpl in *; done || lia.
  - intros [-> ->]. simpl. lia.
  - lia.
  - lia.
Qed.

(** X6.  The repository info is absent exactly when no repository is bound.
    Its name and branch are never empty and the name holds no path
    separator: it is the last segment of the root path, [Unknown] when the
    path ends with a separator; the branch is [Unknown] without a [HEAD]
    name. *)
Theorem getRepositoryInfo_spec this window repo :
  (getRepositoryInfo this window repo = None ↔
   boundRepository this window repo = None) ∧
  (∀ info,
     getRepositoryInfo this window repo = Some info →
     RepositoryInfo.name info ≠ "" ∧
     RepositoryInfo.branch info ≠ "" ∧
     Forall (λ a, JSString.isPathSeparator a = false)
            (JSString.chars (RepositoryInfo.name info))) ∧
  (∀ repository parent c base info,
     boundRepository this window repo = Some repository →
     Uri.fsPath (Repository.rootUri repository) = parent +:+ String c base →
     JSString.isPathSeparator c = true →
     Forall (λ a, JSString.isPathSeparator a = false) (JSString.chars base) →
     getRepositoryInfo this window repo = Some info →
     RepositoryInfo.name info = JSString.orString base "Unknown").
Proof.
  unfold getRepositoryInfo.
  destruct (boundRepository this window repo) as [repository|];
    [|by repeat split].
  set (rootPath := Uri.fsPath (Repository.rootUri repository)).
  assert (∀ x, JSString.orDefault x "Unknown" ≠ "") as Hnonempty.
  { intros [s|]; simpl; [|done]. unfold JSString.orString.
    destruct (String.eqb_spec s ""); done. }
  split; [done|]. split.
  - intros info [= <-]. simpl. split; [apply Hnonempty|].
    split; [apply Hnonempty|].
    pose proof (split_parts_clean JSString.isPathSeparator rootPath) as Hclean.
    destruct (last _) as [part|] eqn:Hlast; simpl; [|by repeat constructor].
    unfold JSString.orString. destruct (String.eqb_spec part "").
    { by repeat constructor. }
    apply last_Some_elem_of in Hlast.
    by apply (proj1 (Forall_forall _ _) Hclean).
  - intros repository' parent c base info [= <-] Hroot Hc Hbase [= <-]. simpl.
    fold rootPath in Hroot. rewrite Hroot.
    rewrite split_app_separator by done.
    rewrite (split_no_separator _ base Hbase).
    by rewrite last_snoc.
Qed.

Lemma getRepositoryInfo_spec_witness :
  ∃ info,
    getRepositoryInfo (Demo.serviceOf Demo.project) Sim.noEditor None
      = Some info ∧
    RepositoryInfo.name info = "project" ∧
    RepositoryInfo.name info ≠ "".
Proof.
  destruct (getRepositoryInfo_spec (Demo.serviceOf Demo.project)
              Sim.noEditor None) as (_ & Hclean & Hname).
  eexists. split; [reflexivity|]. split.
  - refine (Hname Demo.project "C:\work" "\"%char "project" _
              eq_refl eq_refl eq_refl _ eq_refl).
    repeat constructor.
  - apply (Hclean _ eq_refl).
Defined.

(** ** Remote operations, diff, undo and clean batches *)

Section RemoteProperties.
Context {W : Type} `{GitBackend W} `{GitRemote W}.


End RemoteProperties.


(** X8.  [getDiff] never rejects: it yields the backend's diff when there is
    one and the empty string when no repository is bound (without a backend
    call) or when the backend rejects. *)
Theorem getDiff_never_rejects {W : Type} `{GitBackend W} `{GitRemote W}
    this window filePath repo (w : World.t W) :
  ∃ w' diff,
    getDiff this window filePath repo w = (w', Fulfilled diff) ∧
    (boundRepository this window repo = None → diff = "" ∧ w' = w) ∧
    (∀ repository,
       boundRepository this window repo = Some repository →
       match (repository_diffWithHEAD repository filePath
                (World.backend w)).2 with
       | Fulfilled text => diff = text
       | Rejected _ => diff = ""
       end).
Proof.
  unfold getDiff.
  destruct (boundRepository this window repo) as [repository|].
  2:{ by exists w, "". }
  unfold tryCatch, callDiffWithHEAD.
  destruct (repository_diffWithHEAD repository filePath (World.backend w))
    as [b [text|e]] eqn:Hd; simpl.
  - do 2 eexists. split; [reflexivity|]. split; [done|].
    intros repository' [= <-]. by rewrite Hd.
  - do 2 eexists. split; [reflexivity|]. split; [done|].
    intros repository' [= <-]. by rewrite Hd.
Qed.

(** X9.  [undoLastCommit] reports success exactly when a repository is
    bound, its log returned at least one commit and the reset command
    resolved; the run then made these two calls and no other, and the
    result carries no error. *)
Theorem undoLastCommit_success {W : Type} `{GitBackend W}
    this window repo (w : World.t W) :
  ∃ w' r,
    undoLastCommit this window repo w = (w', Fulfilled r) ∧
    (UndoResult.success r = true ↔
     ∃ repository commits,
       boundRepository this window repo = Some repository ∧
       commits ≠ [] ∧
       World.trace w' =
         World.trace w ++ [EvLog 1 (Fulfilled commits);
                           EvCommand "git.undoCommit" None]) ∧
    (UndoResult.success r = true → UndoResult.error r = None).
Proof.
  unfold undoLastCommit.
  destruct (boundRepository this window repo) as [repository|].
  2:{ do 2 eexists. split; [reflexivity|]. simpl. split; [|done].
      split; [done|]. intros (? & ? & ? & _). done. }
  unfold tryCatch, mbind, Async_bind, bind, callLog, callCommand.
  destruct (repository_log repository 1 (World.backend w))
    as [b1 [commits|e]]; simpl.
  - destruct commits as [|commit commits]; simpl.
    + do 2 eexists. split; [reflexivity|]. simpl. split; [|done].
      split; [done|]. intros (? & ? & _ & _ & Htrace).
      apply app_inv_head in Htrace. discriminate.
    + destruct (executeCommand "git.undoCommit" b1) as [b2 [e|]]; simpl.
      * do 2 eexists. split; [reflexivity|]. simpl. split; [|done].
        split; [done|]. intros (? & ? & _ & _ & Htrace).
        rewrite <- app_assoc in Htrace. apply app_inv_head in Htrace.
        discriminate.
      * do 2 eexists. split; [reflexivity|]. simpl. split; [|done].
        split; [|done]. intros _. exists repository, (commit :: commits).
        split; [done|]. split; [done|]. by rewrite <- app_assoc.
  - do 2 eexists. split; [reflexivity|]. simpl. split; [|done].
    split; [done|]. intros (? & ? & _ & _ & Htrace).
    apply app_inv_head in Htrace. discriminate.
Qed.

Lemma attempts_all_committed
    (attempts : list (CommitTask.t * TaskOutcome)) :
  Forall (λ ev, completedMutation ev = true) (attempts ≫= attemptEvents) ↔
  filter (λ a, committed a ≠ true) attempts = [].
Proof.
  induction attempts as [|[task o] attempts IH]; [done|].
  rewrite bind_cons, Forall_app, IH, filter_cons.
  destruct o.
  - rewrite decide_False by (intros Hne; by apply Hne).
    split; [tauto|]. intros Hnil. split; [|done]. by repeat constructor.
  - rewrite decide_True by done.
    split; [|done]. intros [Hev _]. apply Forall_cons in Hev as [Hev _]. done.
  - rewrite decide_True by done.
    split; [|done]. intros [Hev _].
    apply Forall_cons in Hev as [_ Hev]. apply Forall_cons in Hev as [Hev _].
    done.
Qed.

(** X10.  On a bound repository a batch reports no failure exactly when
    every [add] and [commit] call it made resolved; [successful] then lists
    every task, in input order, with its path and message.  An empty batch
    makes no call and reports two empty lists. *)
Theorem bulkCommit_clean_run {W : Type} `{GitBackend W}
    this window tasks repo repository (w : World.t W) :
  boundRepository this window repo = Some repository →
  ∃ w' result events,
    bulkCommit this window tasks repo w = (w', Fulfilled result) ∧
    World.trace w' = World.trace w ++ events ∧
    (BulkCommitResult.failed result = [] ↔
     Forall (λ ev, completedMutation ev = true) events) ∧
    (BulkCommitResult.failed result = [] →
     BulkCommitResult.successful result =
       (λ task, CommitResult.mk true (CommitTask.filePath task)
                  (Some (CommitTask.message task)) None) <$> tasks) ∧
    (tasks = [] → events = [] ∧ BulkCommitResult.successful result = []).
Proof.
  intros Hbound. unfold bulkCommit. rewrite Hbound.
  destruct (commitTasks_run repository tasks
              (BulkCommitResult.mk [] [] (length tasks)) w)
    as (attempts & w' & result & Hfst & Hrun & Htrace & Hok & Hko & _).
  exists w', result, (attempts ≫= attemptEvents). simpl in Hok, Hko.
  split; [done|]. split; [done|].
  assert (BulkCommitResult.failed result = [] ↔
          filter (λ a, committed a ≠ true) attempts = []) as Hfailed.
  { rewrite Hko. split; [apply fmap_nil_inv|by intros ->]. }
  split; [by rewrite Hfailed, attempts_all_committed|]. split.
  - intros Hnone%Hfailed. rewrite Hok, <- Hfst. clear -Hnone.
    induction attempts as [|[task o] attempts IH]; [done|].
    rewrite filter_cons in Hnone. rewrite filter_cons.
    destruct o.
    + rewrite decide_False in Hnone by (intros Hne; by apply Hne).
      rewrite decide_True by done. rewrite !fmap_cons. f_equal. by apply IH.
    + rewrite decide_True in Hnone by done. done.
    + rewrite decide_True in Hnone by done. done.
  - intros ->. destruct attempts; [|done]. by rewrite Hok.
Qed.

Lemma bulkCommit_clean_run_witness :
  boundRepository Sim.unbound Sim.noEditor (Some Sim.emptyRepo)
    = Some Sim.emptyRepo ∧
  ∃ w' result events,
    bulkCommit Sim.unbound Sim.noEditor Sim.abc (Some Sim.emptyRepo) Sim.fresh
      = (w', Fulfilled result) ∧
    World.trace w' = World.trace Sim.fresh ++ events ∧
    (BulkCommitResult.failed result = [] ↔
     Forall (λ ev, completedMutation ev = true) events) ∧
    (BulkCommitResult.failed result = [] →
     BulkCommitResult.successful result =
       (λ task, CommitResult.mk true (CommitTask.filePath task)
                  (Some (CommitTask.message task)) None) <$> Sim.abc) ∧
    (Sim.abc = [] → events = [] ∧ BulkCommitResult.successful result = []).
Proof.
  split; [reflexivity|].
  exact (bulkCommit_clean_run Sim.unbound Sim.noEditor Sim.abc
           (Some Sim.emptyRepo) Sim.emptyRepo Sim.fresh eq_refl).
Defined.

(** ** The webview: filtering and grouping *)

Lemma elem_of_List_filter {A : Type} (f : A → bool) (l : list A) (x : A) :
  x ∈ List.filter f l ↔ x ∈ l ∧ f x = true.
Proof. rewrite !list_elem_of_In. apply filter_In. Qed.

Lemma sublist_List_filter {A : Type} (f : A → bool) (l : list A) :
  sublist (List.filter f l) l.
Proof.
  induction l as [|x l IH]; simpl; [constructor|].
  destruct (f x); by constructor.
Qed.

Lemma List_filter_split_length {A : Type} (f : A → bool) (l : list A) :
  length (List.filter f l) + length (List.filter (λ x, negb (f x)) l)
  = length l.
Proof.
  induction l as [|x l IH]; simpl; [done|].
  destruct (f x); simpl; lia.
Qed.

Lemma List_filter_comm {A : Type} (f g : A → bool) (l : list A) :
  List.filter f (List.filter g l) = List.filter g (List.filter f l).
Proof.
  induction l as [|x l IH]; simpl; [done|].
  destruct (f x) eqn:Hf, (g x) eqn:Hg; simpl; rewrite ?Hf, ?Hg, IH; done.
Qed.

Section WebviewFilter.
Context `{TextRuntime}.

(** The search, applied or not, as one predicate. *)
Lemma getFilteredFiles_filters state :
  getFilteredFiles state =
    List.filter
      (λ f, String.eqb (WebviewState.searchQuery state) "" ||
            matchesSearch (WebviewState.searchQuery state) f)
      (List.filter (matchesFilter (WebviewState.filter state))
                   (WebviewState.files state)).
Proof.
  unfold getFilteredFiles.
  destruct (String.eqb _ ""); simpl; [|done].
  set (l := List.filter _ _). clearbody l.
  induction l as [|x l IH]; simpl; [done|]. by rewrite <- IH.
Qed.

End WebviewFilter.

(** X11.  The files shown are a sub-list of the files received, in the same
    order, and each matches the active filter; under the [all] filter with
    an empty search all files are shown.  For one search, the [staged] and
    the [unstaged] view split the [all] view: each file shown under [all]
    is shown by exactly one of them. *)
Theorem getFilteredFiles_views `{TextRuntime} state :
  sublist (getFilteredFiles state) (WebviewState.files state) ∧
  (∀ f, f ∈ getFilteredFiles state →
        matchesFilter (WebviewState.filter state) f = true) ∧
  (WebviewState.filter state = Filter.all →
   WebviewState.searchQuery state = "" →
   getFilteredFiles state = WebviewState.files state) ∧
  length (getFilteredFiles (setFilter Filter.staged state)) +
  length (getFilteredFiles (setFilter Filter.unstaged state))
  = length (getFilteredFiles (setFilter Filter.all state)) ∧
  (∀ f, f ∈ getFilteredFiles (setFilter Filter.all state) →
        (f ∈ getFilteredFiles (setFilter Filter.staged state) ↔
         f ∉ getFilteredFiles (setFilter Filter.unstaged state))).
Proof.
  split; [|split; [|split; [|split]]].
  - rewrite getFilteredFiles_filters.
    etrans; apply sublist_List_filter.
  - intros f. rewrite getFilteredFiles_filters, !elem_of_List_filter. tauto.
  - intros Hall Hq. unfold getFilteredFiles. rewrite Hall, Hq. simpl.
    induction (WebviewState.files state) as [|x l IH]; simpl; [done|].
    by rewrite IH.
  - rewrite !getFilteredFiles_filters. simpl.
    set (search := λ f, _ || _). clearbody search.
    induction (WebviewState.files state) as [|x l IH]; simpl; [done|].
    destruct (FileChange.staged x); simpl; destruct (search x); simpl; lia.
  - intros f. rewrite !getFilteredFiles_filters. simpl.
    rewrite !elem_of_List_filter. intros [[Hf _] Hs].
    unfold matchesFilter. destruct (FileChange.staged f); simpl.
    + split; [|done]. intros _ [[_ Hno] _]. done.
    + split; [intros [[_ Hno] _]; done|]. intros Hno. exfalso. by apply Hno.
Qed.

Section Grouping.
Implicit Types (groups : list (string * list FileChange.t)).
Implicit Types (file f : FileChange.t) (folder key : string).

Lemma pushToGroup_keys folder file groups :
  (pushToGroup folder file groups).*1 =
    if bool_decide (folder ∈ groups.*1) then groups.*1
    else groups.*1 ++ [folder].
Proof.
  induction groups as [|[key members] rest IH]; [done|].
  cbn [pushToGroup].
  destruct (String.eqb_spec key folder) as [->|Hne]; rewrite !fmap_cons;
    cbn [fst].
  - rewrite bool_decide_eq_true_2 by left. done.
  - rewrite IH. destruct (bool_decide (folder ∈ rest.*1)) eqn:Hin.
    + apply bool_decide_eq_true in Hin.
      rewrite bool_decide_eq_true_2 by by right. done.
    + apply bool_decide_eq_false in Hin.
      rewrite bool_decide_eq_false_2; [done|].
      intros [?|?]%elem_of_cons; [congruence|done].
Qed.

Lemma membersOf_pushToGroup folder file groups key :
  membersOf key (pushToGroup folder file groups) =
    if String.eqb folder key then membersOf key groups ++ [file]
    else membersOf key groups.
Proof.
  induction groups as [|[k members] rest IH]; simpl.
  { by destruct (String.eqb folder key). }
  destruct (String.eqb_spec k folder) as [->|Hne]; simpl.
  - by destruct (String.eqb folder key).
  - destruct (String.eqb_spec k key) as [->|Hk].
    + destruct (String.eqb_spec folder key); [congruence|done].
    + apply IH.
Qed.

Lemma membersOf_elem_of key members groups :
  NoDup groups.*1 → (key, members) ∈ groups → membersOf key groups = members.
Proof.
  induction groups as [|[k ms] rest IH]; simpl.
  { intros _ Hin. by apply elem_of_nil in Hin. }
  rewrite NoDup_cons. intros [Hk Hnd] Hin.
  apply elem_of_cons in Hin as [[= -> ->]|Hin].
  { by rewrite String.eqb_refl. }
  destruct (String.eqb_spec k key) as [->|Hne]; [|by apply IH].
  exfalso. apply Hk. apply list_elem_of_fmap. by exists (key, members).
Qed.

(** The grouping loop after any number of files. *)
Lemma grouping_invariant (folderOf : FileChange.t → string) files :
  let groups :=
    foldl (λ groups file, pushToGroup (folderOf file) file groups) [] files in
  NoDup groups.*1 ∧
  (∀ key, membersOf key groups =
          List.filter (λ f, String.eqb (folderOf f) key) files) ∧
  (∀ key, key ∈ groups.*1 ↔ ∃ f, f ∈ files ∧ folderOf f = key).
Proof.
  induction files as [|file files IH] using rev_ind; simpl.
  { split; [constructor|]. split; [done|]. intros key. split.
    - intros Hin. by apply elem_of_nil in Hin.
    - intros (f & Hin & _). by apply elem_of_nil in Hin. }
  rewrite foldl_snoc. simpl in IH.
  set (groups := foldl _ [] files) in *.
  destruct IH as (Hnd & Hmembers & Hkeys).
  split; [|split].
  - rewrite pushToGroup_keys. case_bool_decide as Hin; [done|].
    apply NoDup_app. split; [done|]. split; [|apply NoDup_singleton].
    intros x Hx ->%list_elem_of_singleton. done.
  - intros key. rewrite membersOf_pushToGroup, Hmembers, List.filter_app.
    simpl.
    destruct (String.eqb (folderOf file) key); [done|by rewrite app_nil_r].
  - intros key. rewrite pushToGroup_keys. split.
    + case_bool_decide as Hin.
      * intros (f & Hf & Hk)%Hkeys. exists f. split; [|done].
        apply elem_of_app. by left.
      * intros [(f & Hf & Hk)%Hkeys| ->%list_elem_of_singleton]%elem_of_app.
        -- exists f. split; [|done]. apply elem_of_app. by left.
        -- exists file. split; [|done]. apply elem_of_app. right. left.
    + intros (f & [Hf| ->%list_elem_of_singleton]%elem_of_app & Hk).
      * assert (key ∈ groups.*1) as Hkey by (apply Hkeys; eauto).
        case_bool_decide; [done|]. apply elem_of_app. by left.
      * subst key. case_bool_decide; [done|]. apply elem_of_app. right. left.
Qed.

End Grouping.

(** X12.  Grouping by folder loses no file and repeats none: the folders
    are pairwise distinct, each group is exactly the shown files of its
    folder in their order, no group is empty, and every shown file has its
    folder among the groups.  Without grouping there is the single group
    with the empty name. *)
Theorem getGroupedFiles_partition `{TextRuntime} state :
  (WebviewState.groupByFolder state = false →
   getGroupedFiles state = [("", getFilteredFiles state)]) ∧
  (WebviewState.groupByFolder state = true →
   NoDup (getGroupedFiles state).*1 ∧
   (∀ folder members,
      (folder, members) ∈ getGroupedFiles state →
      members ≠ [] ∧
      members = List.filter (λ f, String.eqb (folderOf f) folder)
                            (getFilteredFiles state)) ∧
   (∀ f, f ∈ getFilteredFiles state →
         folderOf f ∈ (getGroupedFiles state).*1)).
Proof.
  unfold getGroupedFiles. split; intros ->; simpl; [done|].
  destruct (grouping_invariant folderOf (getFilteredFiles state))
    as (Hnd & Hmembers & Hkeys).
  simpl in *. set (groups := foldl _ [] _) in *.
  split; [done|]. split.
  - intros folder members Hin.
    assert (members = List.filter (λ f, String.eqb (folderOf f) folder)
                                  (getFilteredFiles state)) as Heq.
    { rewrite <- Hmembers. symmetry. by apply membersOf_elem_of. }
    split; [|done].
    assert (folder ∈ groups.*1) as Hkey.
    { apply list_elem_of_fmap. by exists (folder, members). }
    apply Hkeys in Hkey as (f & Hf & Hfolder).
    intros Hnil. rewrite Hnil in Heq.
    assert (f ∈ List.filter (λ f, String.eqb (folderOf f) folder)
                            (getFilteredFiles state)) as Hmem.
    { apply elem_of_List_filter. split; [done|]. by apply String.eqb_eq. }
    rewrite <- Heq in Hmem. by apply elem_of_nil in Hmem.
  - intros f Hf. apply Hkeys. eauto.
Qed.

Lemma getGroupedFiles_partition_witness :
  WebviewState.groupByFolder Demo.drafting = true ∧
  NoDup (getGroupedFiles Demo.drafting).*1 ∧
  (getGroupedFiles Demo.drafting).*1 = ["src"; "(root)"; "docs/x"].
Proof.
  split; [reflexivity|].
  split; [|reflexivity].
  exact (proj1 (proj2 (getGroupedFiles_partition Demo.drafting) eq_refl)).
Defined.

(** X13.  For a relative path with a slash, the folder, a slash and the last
    segment give the path back, and the file name shown is that last
    segment unless it is empty; a path without a slash is grouped under
    [(root)] and shown whole. *)
Theorem folder_and_file_name file :
  (("/"%char ∈ JSString.chars (FileChange.relativePath file)) →
   ∃ name,
     last (JSString.split JSString.isSlash (FileChange.relativePath file))
       = Some name ∧
     folderOf file +:+ "/" +:+ name = FileChange.relativePath file ∧
     (name ≠ "" → fileNameOf file = name)) ∧
  (("/"%char ∉ JSString.chars (FileChange.relativePath file)) →
   folderOf file = "(root)" ∧
   fileNameOf file = FileChange.relativePath file).
Proof.
  unfold folderOf, fileNameOf.
  set (rp := FileChange.relativePath file).
  assert (JSString.split JSString.isSlash rp
          = JSString.split (Ascii.eqb "/") rp) as Hsplit
    by (apply split_ext, isSlash_eqb).
  assert (∀ a, JSString.isSlash a = true ↔ a = "/"%char) as Hslash.
  { intros a. unfold JSString.isSlash. apply Ascii.eqb_eq. }
  split.
  - intros Hin.
    assert (1 < length (JSString.split JSString.isSlash rp)) as Hlen.
    { rewrite split_length.
      assert ("/"%char ∈ List.filter JSString.isSlash (JSString.chars rp))
        as Hf by (apply elem_of_List_filter; split; [done|by apply Hslash]).
      destruct (List.filter _ _); [by apply elem_of_nil in Hf|simpl; lia]. }
    apply Nat.ltb_lt in Hlen as Hltb. rewrite Hltb.
    destruct (JSString.split JSString.isSlash rp) as [|part parts] eqn:Hparts
      using rev_ind; [simpl in Hlen; lia|]. clear IHparts.
    exists part. rewrite last_snoc. split; [done|].
    rewrite dropLast_snoc. split.
    + pose proof (join_split "/"%char rp) as Hjoin.
      rewrite <- Hsplit in Hjoin. rewrite join_snoc in Hjoin; [done|].
      intros ->. rewrite length_app in Hlen. simpl in Hlen. lia.
    + intros Hname. simpl. unfold JSString.orString.
      destruct (String.eqb_spec part ""); done.
  - intros Hnot.
    assert (JSString.split JSString.isSlash rp = [rp]) as ->.
    { apply split_no_separator. apply Forall_forall. intros a Ha.
      destruct (JSString.isSlash a) eqn:Hs; [|done].
      apply Hslash in Hs as ->. done. }
    simpl. split; [done|]. unfold JSString.orString.
    destruct (String.eqb_spec rp ""); done.
Qed.

Lemma folder_and_file_name_witness :
  "/"%char ∈ JSString.chars
               (FileChange.relativePath
                  (Demo.entry "docs/x/y.md" modified false)) ∧
  folderOf (Demo.entry "docs/x/y.md" modified false) +:+ "/" +:+ "y.md"
    = "docs/x/y.md" ∧
  fileNameOf (Demo.entry "docs/x/y.md" modified false) = "y.md".
Proof.
  assert ("/"%char ∈ JSString.chars
                       (FileChange.relativePath
                          (Demo.entry "docs/x/y.md" modified false))) as Hin
    by compute_done.
  split; [exact Hin|].
  destruct (proj1 (folder_and_file_name
                     (Demo.entry "docs/x/y.md" modified false)) Hin)
    as (name & Hlast & Hjoin & Hname).
  assert (name = "y.md") as -> by (vm_compute in Hlast; congruence).
  split; [exact Hjoin|]. by apply Hname.
Defined.

(** ** The webview: selection and messages *)

Section Selection.
Implicit Types (p q : string) (set selected paths : list string).
Implicit Types (messages : gmap string string) (files : list FileChange.t).

Lemma setAdd_elem_of p q set : q ∈ setAdd p set ↔ q = p ∨ q ∈ set.
Proof.
  unfold setAdd. case_bool_decide as Hin.
  - split; [by right|]. by intros [->|?].
  - rewrite elem_of_app, list_elem_of_singleton. tauto.
Qed.

Lemma setAdd_NoDup p set : NoDup set → NoDup (setAdd p set).
Proof.
  intros Hnd. unfold setAdd. case_bool_decide as Hin; [done|].
  apply NoDup_app. split; [done|]. split; [|apply NoDup_singleton].
  intros x Hx ->%list_elem_of_singleton. done.
Qed.

Lemma setDelete_elem_of p q set : q ∈ setDelete p set ↔ q ∈ set ∧ q ≠ p.
Proof.
  unfold setDelete. rewrite elem_of_List_filter.
  destruct (String.eqb_spec q p); simpl; split; intros []; done.
Qed.

Lemma List_filter_NoDup {A : Type} (f : A → bool) (l : list A) :
  NoDup l → NoDup (List.filter f l).
Proof.
  induction 1 as [|x l Hx Hnd IH]; simpl; [constructor|].
  destruct (f x); [|done]. constructor; [|done].
  rewrite elem_of_List_filter. tauto.
Qed.

Lemma autoSelect_elem_of files messages selected q :
  q ∈ autoSelect files messages selected ↔
  q ∈ selected ∨
  (q ∈ FileChange.path <$> files) ∧ messages !! q = None.
Proof.
  unfold autoSelect. revert selected.
  induction files as [|f files IH]; intros selected; cbn [foldl].
  { rewrite fmap_nil, elem_of_nil. tauto. }
  rewrite IH, fmap_cons, elem_of_cons. case_bool_decide as Hhas.
  - split; [tauto|]. intros [?|[[->|?] Hq]]; [tauto| |tauto].
    rewrite Hq in Hhas. by destruct Hhas.
  - rewrite setAdd_elem_of. apply eq_None_not_Some in Hhas.
    split; [|tauto]. intros [[->|?]|?]; tauto.
Qed.

Lemma autoSelect_NoDup files messages selected :
  NoDup selected → NoDup (autoSelect files messages selected).
Proof.
  unfold autoSelect. revert selected.
  induction files as [|f files IH]; intros selected Hnd; cbn [foldl]; [done|].
  apply IH. case_bool_decide; [done|]. by apply setAdd_NoDup.
Qed.

Lemma pruning_elem_of paths (visited : list string) selected q :
  q ∈ foldl (λ selected path,
               if bool_decide (path ∈ paths) then selected
               else setDelete path selected) selected visited ↔
  q ∈ selected ∧ (q ∈ paths ∨ q ∉ visited).
Proof.
  revert selected. induction visited as [|p visited IH]; intros selected;
    cbn [foldl].
  { split; [|tauto]. intros Hq. split; [done|]. right. apply not_elem_of_nil. }
  rewrite IH, not_elem_of_cons. case_bool_decide as Hp.
  - split; [|tauto]. intros [Hq [?|Hv]]; [tauto|].
    split; [done|]. destruct (decide (q = p)) as [->|]; tauto.
  - rewrite setDelete_elem_of. split; [tauto|].
    intros [Hq [?|[? ?]]]; [|tauto].
    split; [|tauto]. split; [done|]. intros ->. done.
Qed.

Lemma pruning_NoDup paths (visited : list string) selected :
  NoDup selected →
  NoDup (foldl (λ selected path,
                  if bool_decide (path ∈ paths) then selected
                  else setDelete path selected) selected visited).
Proof.
  revert selected. induction visited as [|p visited IH]; intros selected Hnd;
    cbn [foldl]; [done|].
  apply IH. case_bool_decide; [done|]. by apply List_filter_NoDup.
Qed.

Lemma pruneSelection_elem_of paths selected q :
  q ∈ pruneSelection paths selected ↔ q ∈ selected ∧ q ∈ paths.
Proof. unfold pruneSelection. rewrite pruning_elem_of. tauto. Qed.

Lemma pruning_lookup paths (visited : list string) messages q :
  foldl (λ messages path,
           if bool_decide (path ∈ paths) then messages
           else delete path messages) messages visited !! q =
  if bool_decide (q ∈ visited ∧ q ∉ paths) then None else messages !! q.
Proof.
  revert messages. induction visited as [|p visited IH]; intros messages;
    cbn [foldl].
  { rewrite bool_decide_eq_false_2; [done|]. intros [Hq _].
    by apply elem_of_nil in Hq. }
  rewrite IH. case_bool_decide as Hrest.
  - rewrite bool_decide_eq_true_2; [done|]. destruct Hrest. split; [|done].
    by right.
  - case_bool_decide as Hp.
    + case_bool_decide as Hq; [|done]. destruct Hq as [Hq Hnot].
      apply elem_of_cons in Hq as [->|Hq]; [done|]. destruct Hrest. done.
    + destruct (decide (p = q)) as [->|Hne].
      * rewrite lookup_delete_eq. rewrite bool_decide_eq_true_2; [done|].
        split; [left|done].
      * rewrite lookup_delete_ne by done.
        case_bool_decide as Hq; [|done]. destruct Hq as [Hq Hnot].
        apply elem_of_cons in Hq as [->|Hq]; [done|]. destruct Hrest. done.
Qed.

Lemma pruneMessages_lookup paths messages q :
  pruneMessages paths messages !! q =
    if bool_decide (q ∈ paths) then messages !! q else None.
Proof.
  unfold pruneMessages. rewrite pruning_lookup.
  case_bool_decide as Hq; case_bool_decide as Hp; try done.
  - destruct Hq. done.
  - destruct (messages !! q) as [message|] eqn:Hm; [|done].
    destruct Hq. split; [|done].
    apply list_elem_of_fmap. exists (q, message). split; [done|].
    by apply elem_of_map_to_list.
Qed.

End Selection.

(** The state after a [changedFiles] message. *)
Lemma changedFiles_state files repoInfo templates settings state :
  let state' :=
    handleMessage (MsgChangedFiles files repoInfo templates settings) state in
  WebviewState.files state' = files ∧
  (∀ p, p ∈ WebviewState.selectedFiles state' ↔
        (p ∈ FileChange.path <$> files) ∧
        (p ∈ WebviewState.selectedFiles state ∨
         WebviewState.commitMessages state !! p = None)) ∧
  (∀ p, WebviewState.commitMessages state' !! p =
        if bool_decide (p ∈ FileChange.path <$> files)
        then WebviewState.commitMessages state !! p else None) ∧
  (NoDup (WebviewState.selectedFiles state) →
   NoDup (WebviewState.selectedFiles state')).
Proof.
  simpl. split; [done|]. split; [|split].
  - intros p. unfold WebviewState.selectedFiles at 1. simpl.
    rewrite pruneSelection_elem_of, autoSelect_elem_of. tauto.
  - intros p. unfold WebviewState.commitMessages at 1. simpl.
    apply pruneMessages_lookup.
  - intros Hnd. unfold WebviewState.selectedFiles at 1. simpl.
    unfold pruneSelection. by apply pruning_NoDup, autoSelect_NoDup.
Qed.

(** X14.  After a [changedFiles] message the webview shows the files
    received and keeps no trace of others: a path is selected exactly when
    it is among the new files and was selected or had no message entry; a
    message is kept exactly when its path is among the new files; a
    selection without repetition stays so. *)
Theorem handleMessage_changedFiles files repoInfo templates settings state :
  let state' :=
    handleMessage (MsgChangedFiles files repoInfo templates settings) state in
  WebviewState.files state' = files ∧
  (∀ p, p ∈ WebviewState.selectedFiles state' ↔
        (p ∈ FileChange.path <$> files) ∧
        (p ∈ WebviewState.selectedFiles state ∨
         WebviewState.commitMessages state !! p = None)) ∧
  (∀ p, WebviewState.commitMessages state' !! p =
        if bool_decide (p ∈ FileChange.path <$> files)
        then WebviewState.commitMessages state !! p else None) ∧
  (NoDup (WebviewState.selectedFiles state) →
   NoDup (WebviewState.selectedFiles state')).
Proof. apply changedFiles_state. Qed.

(** X15.  A [commitResult] with no success leaves the state as it is.  With
    at least one success the webview forgets every message and selection,
    also those of files whose commit failed: after the refresh that follows,
    every file still listed is selected and none has a message. *)
Theorem handleMessage_commitResult
    result files repoInfo templates settings state :
  (BulkCommitResultInfo.successful result = 0 →
   handleMessage (MsgCommitResult result) state = state) ∧
  (0 < BulkCommitResultInfo.successful result →
   let state' :=
     handleMessage (MsgChangedFiles files repoInfo templates settings)
       (handleMessage (MsgCommitResult result) state) in
   WebviewState.commitMessages state' = ∅ ∧
   (∀ p, p ∈ WebviewState.selectedFiles state' ↔
         p ∈ FileChange.path <$> files)).
Proof.
  split.
  - intros Hzero. simpl. by rewrite Hzero.
  - intros Hsome%Nat.ltb_lt. intros state'.
    destruct (changedFiles_state files repoInfo templates settings
                (handleMessage (MsgCommitResult result) state))
      as (_ & Hsel & Hmsg & _).
    fold state' in Hsel, Hmsg.
    assert (WebviewState.commitMessages
              (handleMessage (MsgCommitResult result) state) = ∅) as Hempty.
    { simpl. by rewrite Hsome. }
    assert (WebviewState.selectedFiles
              (handleMessage (MsgCommitResult result) state) = []) as Hnone.
    { simpl. by rewrite Hsome. }
    split.
    + apply map_eq. intros p. rewrite Hmsg, Hempty, lookup_empty.
      by case_bool_decide.
    + intros p. rewrite Hsel, Hempty, Hnone, lookup_empty.
      rewrite elem_of_nil. tauto.
Qed.

Lemma handleMessage_commitResult_witness :
  0 < BulkCommitResultInfo.successful
        (BulkCommitResultInfo.mk 1 1 2 ["/w/README.md: hook failed"]) ∧
  WebviewState.commitMessages
    (handleMessage (MsgChangedFiles (take 2 Demo.listing) None None None)
       (handleMessage
          (MsgCommitResult
             (BulkCommitResultInfo.mk 1 1 2 ["/w/README.md: hook failed"]))
          Demo.drafting)) = ∅.
Proof.
  assert (0 < BulkCommitResultInfo.successful
                (BulkCommitResultInfo.mk 1 1 2 ["/w/README.md: hook failed"]))
    as Hpos by (simpl; lia).
  split; [exact Hpos|].
  exact (proj1 (proj2 (handleMessage_commitResult
                         (BulkCommitResultInfo.mk 1 1 2
                            ["/w/README.md: hook failed"])
                         (take 2 Demo.listing) None None None Demo.drafting)
                  Hpos)).
Defined.

(** ** The webview: what is sent for commit *)

Section Requests.
Context `{TextRuntime}.

(** The paths [handleCommit] turns into requests. *)
Lemma handleCommit_fold state (selected : list string) commits :
  foldl (λ commits path,
           match trimmedMessage state path with
           | Some message =>
               if negb (String.eqb message "") &&
                  listed path (getFilteredFiles state)
               then commits ++ [CommitTask.mk path message]
               else commits
           | None => commits
           end) commits selected =
  commits ++
  ((λ path, CommitTask.mk path (default "" (trimmedMessage state path))) <$>
     List.filter (λ path, truthy (trimmedMessage state path) &&
                          listed path (getFilteredFiles state)) selected).
Proof.
  revert commits. induction selected as [|p selected IH]; intros commits;
    cbn [foldl List.filter].
  { by rewrite app_nil_r. }
  rewrite IH.
  destruct (trimmedMessage state p) as [message|] eqn:Hm; simpl; [|done].
  destruct (negb (String.eqb message "") && listed p _); simpl; [|done].
  rewrite Hm. simpl. by rewrite <- app_assoc.
Qed.

Lemma handleCommit_commits state :
  handleCommit state =
    let commits :=
      (λ path, CommitTask.mk path (default "" (trimmedMessage state path))) <$>
        List.filter (λ path, truthy (trimmedMessage state path) &&
                             listed path (getFilteredFiles state))
                    (WebviewState.selectedFiles state) in
    if Nat.eqb (length commits) 0 then None else Some (CmdCommitFiles commits).
Proof. unfold handleCommit. by rewrite handleCommit_fold. Qed.

Lemma listed_elem_of path files :
  listed path files = true ↔ path ∈ FileChange.path <$> files.
Proof.
  unfold listed. rewrite existsb_exists, list_elem_of_fmap.
  split; intros (f & Hf & Hp).
  - exists f. apply String.eqb_eq in Hp. apply list_elem_of_In in Hf. done.
  - exists f. split; [by apply list_elem_of_In|].
    apply String.eqb_eq. done.
Qed.

End Requests.

(** X16.  What [handleCommit] posts, when it posts, is a non-empty list of
    requests, one per selected path that is shown under the current filter
    and whose message is not blank, in selection order; each carries the
    trimmed message, which is not empty; and each passes the panel's own
    filter on messages, so the panel drops none of them. *)
Theorem handleCommit_requests `{TextRuntime} state message :
  handleCommit state = Some message →
  ∃ commits,
    message = CmdCommitFiles commits ∧
    commits ≠ [] ∧
    sublist (CommitTask.filePath <$> commits)
            (WebviewState.selectedFiles state) ∧
    (∀ c, c ∈ commits →
          (CommitTask.filePath c ∈ FileChange.path <$> getFilteredFiles state) ∧
          CommitTask.message c ≠ "" ∧
          ∃ stored,
            WebviewState.commitMessages state !! CommitTask.filePath c
              = Some stored ∧
            CommitTask.message c = JSString.trim isWhiteSpace stored) ∧
    validCommits commits = commits.
Proof.
  rewrite handleCommit_commits. simpl.
  set (chosen := List.filter _ (WebviewState.selectedFiles state)).
  set (commits := _ <$> chosen).
  destruct (Nat.eqb_spec (length commits) 0) as [|Hlen]; [done|].
  intros [= <-]. exists commits. split; [done|].
  split; [intros Hnil; by rewrite Hnil in Hlen|].
  assert (∀ c, c ∈ commits →
            (CommitTask.filePath c ∈ FileChange.path <$> getFilteredFiles state) ∧
            CommitTask.message c ≠ "" ∧
            ∃ stored,
              WebviewState.commitMessages state !! CommitTask.filePath c
                = Some stored ∧
              CommitTask.message c = JSString.trim isWhiteSpace stored)
    as Heach.
  { intros c (p & -> & Hp)%list_elem_of_fmap. simpl.
    apply elem_of_List_filter in Hp as [_ [Htruthy Hlisted]%andb_true_iff].
    split; [by apply listed_elem_of|].
    unfold trimmedMessage in *.
    destruct (WebviewState.commitMessages state !! p) as [stored|]; [|done].
    simpl in *. split; [|eauto].
    destruct (String.eqb_spec (JSString.trim isWhiteSpace stored) ""); done. }
  split; [|split; [done|]].
  - unfold commits. rewrite <- list_fmap_compose. simpl.
    rewrite list_fmap_id. apply sublist_List_filter.
  - unfold validCommits.
    assert (Forall (λ c, CommitTask.message c ≠ "" ∧
                         JSString.trim isWhiteSpace (CommitTask.message c)
                         = CommitTask.message c) commits) as Hall.
    { apply Forall_forall. intros c Hc.
      destruct (Heach c Hc) as (_ & Hne & stored & _ & Hm).
      split; [done|]. rewrite Hm. apply trim_idemp. }
    clearbody commits. clear -Hall.
    induction Hall as [|c commits [Hne Htrim] _ IH]; simpl; [done|].
    rewrite Htrim, IH.
    destruct (CommitTask.message c); [done|]. done.
Qed.

Lemma handleCommit_requests_witness :
  handleCommit Demo.drafting
    = Some (CmdCommitFiles [CommitTask.mk "/w/src/a.ts" "fix a"]) ∧
  validCommits [CommitTask.mk "/w/src/a.ts" "fix a"]
    = [CommitTask.mk "/w/src/a.ts" "fix a"].
Proof.
  assert (handleCommit Demo.drafting
            = Some (CmdCommitFiles [CommitTask.mk "/w/src/a.ts" "fix a"]))
    as Hsent by reflexivity.
  split; [exact Hsent|].
  destruct (handleCommit_requests Demo.drafting _ Hsent)
    as (commits & [= <-] & _ & _ & _ & Hvalid).
  exact Hvalid.
Defined.

(** X17.  The number on the commit button is the number of requests
    [handleCommit] would post; the button is disabled exactly when it would
    post nothing; and that number never exceeds the count of selected files
    shown. *)
Theorem commit_button_matches_requests `{TextRuntime} state :
  readyToCommit state =
    match handleCommit state with
    | Some (CmdCommitFiles commits) => length commits
    | _ => 0
    end ∧
  (commitButtonDisabled state = true ↔ handleCommit state = None) ∧
  readyToCommit state ≤ selectedCount state.
Proof.
  assert (readyToCommit state =
          length (List.filter
                    (λ path, truthy (trimmedMessage state path) &&
                             listed path (getFilteredFiles state))
                    (WebviewState.selectedFiles state))) as Hready.
  { unfold readyToCommit. f_equal.
    induction (WebviewState.selectedFiles state) as [|p l IH]; simpl; [done|].
    destruct (truthy (trimmedMessage state p)); simpl; [|done].
    destruct (listed p _); simpl; by rewrite IH. }
  rewrite handleCommit_commits. simpl.
  set (chosen := List.filter _ (WebviewState.selectedFiles state)) in *.
  unfold commitButtonDisabled. rewrite Hready, ?length_fmap.
  split; [|split].
  - destruct (Nat.eqb_spec (length chosen) 0) as [Hzero|_]; [done|].
    by rewrite length_fmap.
  - by destruct (Nat.eqb_spec (length chosen) 0).
  - unfold selectedCount, chosen. clear.
    induction (WebviewState.selectedFiles state) as [|p l IH]; simpl; [done|].
    destruct (truthy (trimmedMessage state p)), (listed p _); simpl; lia.
Qed.

(** X18.  [selectAll] selects every file shown and keeps what was selected;
    it leaves the messages and the files untouched, keeps a selection free
    of repetitions, and a second [selectAll] changes nothing more. *)
Theorem selectAll_selects_shown `{TextRuntime} state :
  (∀ p, p ∈ WebviewState.selectedFiles (selectAll state) ↔
        p ∈ WebviewState.selectedFiles state ∨
        p ∈ FileChange.path <$> getFilteredFiles state) ∧
  WebviewState.commitMessages (selectAll state)
    = WebviewState.commitMessages state ∧
  (NoDup (WebviewState.selectedFiles state) →
   NoDup (WebviewState.selectedFiles (selectAll state))) ∧
  selectAll (selectAll state) = selectAll state.
Proof.
  assert (∀ files selected p,
            p ∈ foldl (λ selected file, setAdd (FileChange.path file) selected)
                      selected files ↔
            p ∈ selected ∨ p ∈ FileChange.path <$> files) as Hfold.
  { induction files as [|f files IH]; intros selected p; cbn [foldl].
    - rewrite fmap_nil, elem_of_nil. tauto.
    - rewrite IH, setAdd_elem_of, fmap_cons, elem_of_cons. tauto. }
  assert (∀ files selected,
            (∀ f, f ∈ files → FileChange.path f ∈ selected) →
            foldl (λ selected file, setAdd (FileChange.path file) selected)
                  selected files = selected) as Hfixed.
  { induction files as [|f files IH]; intros selected Hall; cbn [foldl];
      [done|].
    unfold setAdd at 2. rewrite bool_decide_eq_true_2 by (apply Hall; left).
    apply IH. intros f' Hf'. apply Hall. by right. }
  split; [|split; [|split]].
  - intros p. apply Hfold.
  - done.
  - unfold selectAll, WebviewState.selectedFiles at 2. simpl.
    generalize (WebviewState.selectedFiles state).
    induction (getFilteredFiles state) as [|f files IH]; intros selected Hnd;
      cbn [foldl]; [done|].
    apply IH. by apply setAdd_NoDup.
  - assert (foldl (λ selected file, setAdd (FileChange.path file) selected)
                  (WebviewState.selectedFiles (selectAll state))
                  (getFilteredFiles state)
            = WebviewState.selectedFiles (selectAll state)) as Hagain.
    { apply Hfixed. intros f Hf.
      change (WebviewState.selectedFiles (selectAll state))
        with (foldl (λ selected file, setAdd (FileChange.path file) selected)
                    (WebviewState.selectedFiles state)
                    (getFilteredFiles state)).
      apply Hfold. right. apply list_elem_of_fmap. eauto. }
    unfold selectAll at 1.
    change (getFilteredFiles (selectAll state))
      with (getFilteredFiles state).
    rewrite Hagain. reflexivity.
Qed.

(** ** The panel *)

Section Panel.
Context {W : Type} `{GitBackend W} `{GitRemote W}.
Implicit Types (w : World.t (Host.t W)) (env : Extension.t W).

Lemma getChangedFiles_fulfils this window repo :
  ∃ files, getChangedFiles this window repo = Fulfilled files.
Proof. unfold getChangedFiles. destruct (boundRepository _ _ _); eauto. Qed.

(** The refresh posts the list between two [loading] messages and touches
    nothing else. *)
Lemma _sendChangedFiles_run env w :
  ∃ w' files info,
    _sendChangedFiles env w = (w', Fulfilled tt) ∧
    World.trace w' = World.trace w ∧
    Host.git (World.backend w') = Host.git (World.backend w) ∧
    getChangedFiles (Extension.service env (Host.git (World.backend w)))
                    (Extension.window env) None = Fulfilled files ∧
    Host.log (World.backend w') =
      Host.log (World.backend w) ++
      [Posted (MsgLoading true);
       Posted (MsgChangedFiles files info (Some (Extension.templates env))
                 (Some (Settings.mk (Extension.pushAfterCommit env)
                                    (Extension.confirmBeforeCommit env))));
       Posted (MsgLoading false)].
Proof.
  destruct (getChangedFiles_fulfils
              (Extension.service env (Host.git (World.backend w)))
              (Extension.window env) None) as [files Hfiles].
  unfold _sendChangedFiles, tryFinally, tryCatch, mbind, Async_bind, bind,
    withService, settled, postMessage, emit, mret, Async_ret, ret.
  simpl. rewrite Hfiles. simpl.
  do 3 eexists. split; [reflexivity|]. simpl.
  split; [done|]. split; [done|]. split; [done|].
  by rewrite <- !app_assoc.
Qed.

(** The push after a batch: it never rejects, posts nothing and leaves the
    trace of stage and commit calls as it is. *)
Lemma _pushAfterCommit_run env w :
  ∃ w' added,
    _pushAfterCommit env w = (w', Fulfilled tt) ∧
    World.trace w' = World.trace w ∧
    Host.log (World.backend w') = Host.log (World.backend w) ++ added ∧
    postedMessages added = [] ∧
    (remoteCalls added = [] ∨ ∃ r, remoteCalls added = [("push", r)]).
Proof.
  unfold _pushAfterCommit, withService, push, mbind, Async_bind, bind.
  destruct (boundRepository _ _ None) as [repository|]; simpl.
  2:{ do 2 eexists. split; [reflexivity|]. simpl. split; [done|].
      split; [reflexivity|]. split; [done|]. by left. }
  unfold tryCatch, mbind, Async_bind, bind, callVoid. simpl.
  unfold onRemote.
  destruct (repository_push repository (Host.git (World.backend w)))
    as [g [e|]]; simpl.
  - do 2 eexists. split; [reflexivity|]. simpl. split; [done|].
    rewrite <- app_assoc. split; [reflexivity|]. split; [done|].
    right. eauto.
  - do 2 eexists. split; [reflexivity|]. simpl. split; [done|].
    rewrite <- app_assoc. split; [reflexivity|]. split; [done|].
    right. eauto.
Qed.

(** Stage and commit calls leave the host log alone. *)
Lemma commitTasks_log repository tasks result w :
  Host.log (World.backend (commitTasks repository tasks result w).1) =
  Host.log (World.backend w).
Proof.
  revert result w. induction tasks as [|task tasks IH]; intros result w;
    [done|].
  cbn [commitTasks]. unfold mbind, Async_bind, bind.
  assert (∃ w1 result1,
            commitTask repository result task w = (w1, Fulfilled result1) ∧
            Host.log (World.backend w1) = Host.log (World.backend w))
    as (w1 & result1 & -> & <-).
  { unfold commitTask, tryCatch, mbind, Async_bind, bind, callAdd, callCommit.
    simpl. unfold onGit.
    destruct (repository_add repository _ (Host.git (World.backend w)))
      as [g1 [e1|]]; simpl; [by do 2 eexists|].
    destruct (repository_commit repository _ g1) as [g2 [e2|]]; simpl;
      by do 2 eexists. }
  apply IH.
Qed.

End Panel.

Section PanelCommit.
Context {W : Type} `{GitBackend W} `{GitRemote W} `{TextRuntime}.
Implicit Types (w : World.t (Host.t W)) (env : Extension.t W).

(** How a run of [_commitFiles] goes: it stops before the batch, or finds
    no repository, or runs the batch on the requests with a message. *)
Lemma _commitFiles_run env commits w :
  ∃ w' added events,
    _commitFiles env commits w = (w', Fulfilled tt) ∧
    Host.log (World.backend w') = Host.log (World.backend w) ++ added ∧
    World.trace w' = World.trace w ++ events ∧
    (((commits = [] ∨ goesAhead env (length commits) = false ∨
       validCommits commits = []) ∧
      events = [] ∧ postedMessages added = [] ∧ remoteCalls added = [])
     ∨
     (goesAhead env (length commits) = true ∧ validCommits commits ≠ [] ∧
      boundRepository (Extension.service env (Host.git (World.backend w)))
                      (Extension.window env) None = None ∧
      events = [] ∧ remoteCalls added = [] ∧
      postedMessages added =
        [MsgLoading true; MsgError "No repository found"; MsgLoading false] ∧
      notifications added = [ErrorMessage "GitToys: No repository found"])
     ∨
     (goesAhead env (length commits) = true ∧ validCommits commits ≠ [] ∧
      ∃ repository attempts result files info,
        boundRepository (Extension.service env (Host.git (World.backend w)))
                        (Extension.window env) None = Some repository ∧
        attempts.*1 = validCommits commits ∧
        events = attempts ≫= attemptEvents ∧
        BulkCommitResult.successful result =
          attemptResult <$> filter (λ a, committed a = true) attempts ∧
        BulkCommitResult.failed result =
          attemptResult <$> filter (λ a, committed a ≠ true) attempts ∧
        BulkCommitResult.totalCommits result
          = length (validCommits commits) ∧
        postedMessages added =
          [MsgLoading true; MsgCommitResult (resultInfo result);
           MsgLoading true;
           MsgChangedFiles files info (Some (Extension.templates env))
             (Some (Settings.mk (Extension.pushAfterCommit env)
                                (Extension.confirmBeforeCommit env)));
           MsgLoading false; MsgLoading false] ∧
        (remoteCalls added = [] ∨
         ∃ r, remoteCalls added = [("push", r)] ∧
              Extension.pushAfterCommit env = true ∧
              0 < length (BulkCommitResult.successful result)))).
Proof.
  unfold _commitFiles.
  destruct (Nat.eqb_spec (length commits) 0) as [Hnone|Hsome].
  { exists (World.mk (Host.mk (Host.git (World.backend w))
                        (Host.log (World.backend w) ++
                           [Notified (WarningMessage
                                        "No files selected for commit.")]))
                     (World.trace w)),
      [Notified (WarningMessage "No files selected for commit.")], [].
    split; [reflexivity|]. split; [reflexivity|].
    rewrite app_nil_r. split; [done|]. left.
    split; [|done]. left. by destruct commits. }
  (* the confirmation *)
  assert (∃ w0 asked,
            (if Extension.confirmBeforeCommit env
             then
               confirm ← askModal env
                           ("Create " +:+ pretty (length commits)
                              +:+ " commit(s)?");
               ret (bool_decide (confirm = Some "Commit"))
             else ret true) w
            = (w0, Fulfilled (goesAhead env (length commits))) ∧
            World.trace w0 = World.trace w ∧
            Host.git (World.backend w0) = Host.git (World.backend w) ∧
            Host.log (World.backend w0) = Host.log (World.backend w) ++ asked ∧
            postedMessages asked = [] ∧ remoteCalls asked = [] ∧
            notifications asked = [])
    as (w0 & asked & Hask & Htrace0 & Hgit0 & Hlog0 & Hp0 & Hr0 & Hn0).
  { unfold goesAhead. destruct (Extension.confirmBeforeCommit env); simpl.
    - do 2 eexists. split; [reflexivity|]. simpl. done.
    - exists w, []. rewrite app_nil_r. done. }
  unfold mbind at 1, Async_bind at 1, bind at 1. rewrite Hask.
  destruct (goesAhead env (length commits)) eqn:Hgo; simpl.
  2:{ exists w0, asked, []. rewrite app_nil_r.
      split; [done|]. split; [done|]. split; [done|]. left. tauto. }
  destruct (Nat.eqb_spec (length (validCommits commits)) 0) as [Hblank|Hvalid].
  { do 3 eexists. split; [reflexivity|]. simpl. rewrite Hlog0, Htrace0.
    rewrite <- app_assoc. split; [reflexivity|].
    rewrite app_nil_r. split; [done|]. left.
    unfold postedMessages, remoteCalls in *. rewrite !omap_app, Hp0, Hr0.
    split; [|done]. right. right. by destruct (validCommits commits). }
  assert (validCommits commits ≠ []) as Hvalid'.
  { intros Hnil. by rewrite Hnil in Hvalid. }
  unfold tryFinally, tryCatch.
  unfold mbind at 1, Async_bind at 1, bind at 1.
  unfold postMessage at 1, emit at 1.
  unfold mbind at 1, Async_bind at 1, bind at 1.
  unfold withService at 1. simpl. rewrite Hgit0.
  unfold bulkCommit.
  destruct (boundRepository
              (Extension.service env (Host.git (World.backend w)))
              (Extension.window env) None) as [repository|] eqn:Hbound.
  2:{ simpl. do 3 eexists. split; [reflexivity|]. simpl.
      rewrite Hlog0, Htrace0, <- !app_assoc. split; [reflexivity|].
      rewrite app_nil_r. split; [done|]. right. left.
      unfold postedMessages, remoteCalls, notifications in *.
      rewrite !omap_app, Hp0, Hr0, Hn0. done. }
  set (w1 := World.mk _ _).
  destruct (commitTasks_run repository (validCommits commits)
              (BulkCommitResult.mk [] [] (length (validCommits commits))) w1)
    as (attempts & w2 & result & Hfst & Hrun & Htrace2 & Hok & Hko & Htot).
  pose proof (commitTasks_log repository (validCommits commits)
                (BulkCommitResult.mk [] [] (length (validCommits commits)))
                w1) as Hlog2.
  rewrite Hrun in Hlog2. simpl in Hlog2, Hok, Hko, Htot, Htrace2.
  rewrite Hrun.
  unfold mbind at 1, Async_bind at 1, bind at 1.
  unfold postMessage at 1, emit at 1.
  set (w3 := World.mk _ (World.trace w2)).
  (* the notifications and the push *)
  assert (∃ w4 notes,
            (if Nat.ltb 0 (length (BulkCommitResult.successful result))
             then
               showInformationMessage
                 ("GitToys: Successfully created " +:+
                  pretty (length (BulkCommitResult.successful result)) +:+
                  " commit(s).");;
               (if Extension.pushAfterCommit env
                then _pushAfterCommit env else ret tt)
             else ret tt) w3 = (w4, Fulfilled tt) ∧
            World.trace w4 = World.trace w3 ∧
            Host.log (World.backend w4) = Host.log (World.backend w3) ++ notes ∧
            postedMessages notes = [] ∧
            (remoteCalls notes = [] ∨
             ∃ r, remoteCalls notes = [("push", r)] ∧
                  Extension.pushAfterCommit env = true ∧
                  0 < length (BulkCommitResult.successful result)))
    as (w4 & notes & Hnotes & Htrace4 & Hlog4 & Hp4 & Hr4).
  { destruct (Nat.ltb_spec 0 (length (BulkCommitResult.successful result)))
      as [Hpos|_].
    2:{ exists w3, []. rewrite app_nil_r. split; [done|]. tauto. }
    unfold mbind, Async_bind, bind, showInformationMessage, emit.
    destruct (Extension.pushAfterCommit env) eqn:Hpush.
    2:{ do 2 eexists. split; [reflexivity|]. simpl. split; [done|].
        split; [reflexivity|]. split; [done|]. by left. }
    set (w3' := World.mk _ _).
    destruct (_pushAfterCommit_run env w3')
      as (w4 & added & Hpushrun & Htr & Hlg & Hpm & Hrc).
    rewrite Hpushrun. exists w4. eexists.
    split; [reflexivity|]. split; [by rewrite Htr|].
    split; [rewrite Hlg; simpl; rewrite <- app_assoc; reflexivity|].
    unfold postedMessages, remoteCalls in *. rewrite !omap_app, Hpm.
    split; [done|].
    destruct Hrc as [Hrc|[r Hrc]]; rewrite Hrc; [by left|].
    right. eauto. }
  unfold mbind at 1, Async_bind at 1, bind at 1. rewrite Hnotes.
  assert (∃ w5 notes2,
            (if Nat.ltb 0 (length (BulkCommitResult.failed result))
             then
               showErrorMessage
                 ("GitToys: Failed to commit " +:+
                  pretty (length (BulkCommitResult.failed result)) +:+
                  " file(s).")
             else ret tt) w4 = (w5, Fulfilled tt) ∧
            World.trace w5 = World.trace w4 ∧
            Host.git (World.backend w5) = Host.git (World.backend w4) ∧
            Host.log (World.backend w5) = Host.log (World.backend w4) ++ notes2 ∧
            postedMessages notes2 = [] ∧ remoteCalls notes2 = [])
    as (w5 & notes2 & Hnotes2 & Htrace5 & _ & Hlog5 & Hp5 & Hr5).
  { destruct (Nat.ltb 0 (length (BulkCommitResult.failed result))).
    - do 2 eexists. split; [reflexivity|]. simpl. done.
    - exists w4, []. rewrite app_nil_r. done. }
  unfold mbind at 1, Async_bind at 1, bind at 1. rewrite Hnotes2.
  destruct (_sendChangedFiles_run env w5)
    as (w6 & files & info & Hsend & Htrace6 & _ & _ & Hlog6).
  rewrite Hsend. cbn [postMessage emit].
  do 3 eexists. split; [reflexivity|].
  cbn [World.backend World.trace Host.log Host.git].
  rewrite Hlog6, Hlog5, Hlog4. subst w3.
  cbn [World.backend World.trace Host.log Host.git]. rewrite Hlog2. subst w1.
  cbn [World.backend World.trace Host.log Host.git].
  rewrite Hlog0, <- !app_assoc. split; [reflexivity|].
  rewrite Htrace6, Htrace5, Htrace4.
  cbn [World.backend World.trace Host.log Host.git]. rewrite Htrace2.
  rewrite Htrace0. split; [reflexivity|].
  right. right. split; [done|]. split; [done|].
  exists repository, attempts, result, files, info.
  split; [done|]. split; [done|]. split; [done|]. split; [done|].
  split; [done|]. split; [done|].
  unfold postedMessages, remoteCalls in *.
  rewrite !omap_app, Hp0, Hr0, Hp4, Hp5, Hr5.
  split; [done|]. simpl. rewrite app_nil_r. done.
Qed.

End PanelCommit.

(** X19.  [_commitFiles] never rejects, and what it stages is decided by the
    messages: when the user does not let the batch go ahead, or no
    repository is bound, it makes no stage or commit call at all; otherwise
    the files it stages are exactly, in order, those of the requests whose
    message is not blank. *)
Theorem _commitFiles_stages_requests_with_message
    {W : Type} `{GitBackend W} `{GitRemote W} `{TextRuntime}
    (env : Extension.t W) commits (w : World.t (Host.t W)) :
  ∃ w' events,
    _commitFiles env commits w = (w', Fulfilled tt) ∧
    World.trace w' = World.trace w ++ events ∧
    (goesAhead env (length commits) = false → events = []) ∧
    (boundRepository (Extension.service env (Host.git (World.backend w)))
                     (Extension.window env) None = None → events = []) ∧
    (∀ repository,
       boundRepository (Extension.service env (Host.git (World.backend w)))
                       (Extension.window env) None = Some repository →
       goesAhead env (length commits) = true →
       addCalls events =
         (λ c, [CommitTask.filePath c]) <$> validCommits commits) ∧
    (∀ paths, paths ∈ addCalls events →
       ∃ c, c ∈ commits ∧ paths = [CommitTask.filePath c] ∧
            JSString.trim isWhiteSpace (CommitTask.message c) ≠ "").
Proof.
  destruct (_commitFiles_run env commits w)
    as (w' & added & events & Hrun & _ & Htrace & Hcases).
  exists w', events. split; [done|]. split; [done|].
  assert (∀ paths,
            paths ∈ (λ c, [CommitTask.filePath c]) <$> validCommits commits →
            ∃ c, c ∈ commits ∧ paths = [CommitTask.filePath c] ∧
                 JSString.trim isWhiteSpace (CommitTask.message c) ≠ "")
    as Hvalid.
  { intros paths (c & -> & Hc)%list_elem_of_fmap. exists c.
    unfold validCommits in Hc. apply elem_of_List_filter in Hc as [Hc Hlen].
    split; [done|]. split; [done|]. intros Hblank.
    rewrite Hblank in Hlen. done. }
  destruct Hcases as [(Hstop & -> & _)
                     |[(Hgo & Hne & Hnone & -> & _)
                      |(Hgo & Hne & repository & attempts & result & files
                        & info & Hbound & Hfst & -> & _)]].
  - split; [done|]. split; [done|]. split.
    + intros repository _ Hgo.
      destruct Hstop as [->|[Hno| ->]]; [done|congruence|done].
    + intros paths Hin. by apply elem_of_nil in Hin.
  - split; [done|]. split; [done|]. split; [intros ?; congruence|].
    intros paths Hin. by apply elem_of_nil in Hin.
  - rewrite addCalls_attempts, Hfst.
    split; [congruence|]. split; [congruence|]. split; [done|]. done.
Qed.

(** The scenario of the five pending changes: only the three requests with
    a message reach the batch. *)
Example _commitFiles_five_requests :
  ∃ w',
    _commitFiles (Demo.extension true false (Some "Commit"))
      Demo.fiveRequests (Demo.hostWorld (Sim.mk [] [] [] [] false))
    = (w', Fulfilled tt) ∧
    addCalls (World.trace w') = [["a.txt"]; ["c.txt"]; ["e.txt"]].
Proof. eexists. split; vm_compute; reflexivity. Qed.


(** X21.  [_commitFiles] calls no remote member but [push], at most once,
    and only when [pushAfterCommit] is set and the summary it posted counts
    at least one successful commit. *)
Theorem _commitFiles_pushes_after_success
    {W : Type} `{GitBackend W} `{GitRemote W} `{TextRuntime}
    (env : Extension.t W) commits (w : World.t (Host.t W)) :
  ∃ w' added,
    _commitFiles env commits w = (w', Fulfilled tt) ∧
    Host.log (World.backend w') = Host.log (World.backend w) ++ added ∧
    length (remoteCalls added) ≤ 1 ∧
    (∀ member r,
       (member, r) ∈ remoteCalls added →
       member = "push" ∧
       Extension.pushAfterCommit env = true ∧
       ∃ summary,
         MsgCommitResult summary ∈ postedMessages added ∧
         0 < BulkCommitResultInfo.successful summary).
Proof.
  destruct (_commitFiles_run env commits w)
    as (w' & added & events & Hrun & Hlog & _ & Hcases).
  exists w', added. split; [done|]. split; [done|].
  destruct Hcases as [(_ & _ & _ & Hremote)
                     |[(_ & _ & _ & _ & Hremote & _)
                      |(_ & _ & repository & attempts & result & files
                        & info & _ & _ & _ & _ & _ & _ & Hposted & Hremote)]].
  - rewrite Hremote. split; [simpl; lia|].
    intros member r Hin. by apply elem_of_nil in Hin.
  - rewrite Hremote. split; [simpl; lia|].
    intros member r Hin. by apply elem_of_nil in Hin.
  - destruct Hremote as [Hremote|(r0 & Hremote & Hpush & Hpos)];
      rewrite Hremote.
    + split; [simpl; lia|]. intros member r Hin. by apply elem_of_nil in Hin.
    + split; [simpl; lia|]. intros member r Hin.
      apply list_elem_of_singleton in Hin as [= -> ->].
      split; [done|]. split; [done|].
      exists (resultInfo result). rewrite Hposted. split; [right; left|done].
Qed.

(** ** The push command and the quick-actions view *)

Section PushCommand.
Context {W : Type} `{GitBackend W} `{GitRemote W}.
Implicit Types (w : World.t (Host.t W)) (env : Extension.t W).


End PushCommand.



(** X23.  With a repository bound the quick-actions view starts with the
    [Push] item, and that item has no command attached exactly when the
    sync status reads zero commits ahead, which is when the push command
    would answer [Nothing to push].  The [Bulk Commit] item has no command
    exactly when [hasChanges] is false. *)
Theorem getChildren_items this window :
  is_Some (boundRepository this window None) →
  ∃ pushItem pullItem bulkItem undoItem,
    getChildren this window = [pushItem; pullItem; bulkItem; undoItem] ∧
    QuickActionItem.label pushItem = "Push" ∧
    (QuickActionItem.command pushItem = None ↔
     ∃ st, getSyncStatus this window None = Some st ∧
           SyncStatus.ahead st = 0%Z) ∧
    QuickActionItem.command pullItem = Some "gittoys.pullChanges" ∧
    (QuickActionItem.command bulkItem = None ↔
     hasChanges this window None = false) ∧
    QuickActionItem.command undoItem = Some "gittoys.undoLastCommit".
Proof.
  intros [repository Hbound]. unfold getChildren.
  assert (is_Some (getRepositoryInfo this window None)) as [info ->].
  { unfold getRepositoryInfo. rewrite Hbound. eauto. }
  do 4 eexists. split; [reflexivity|]. split; [done|]. split; [|split; [done|split; [|done]]].
  - unfold newQuickActionItem. simpl.
    destruct (getSyncStatus this window None) as [st|]; simpl.
    + destruct (Z.eqb_spec (SyncStatus.ahead st) 0) as [Hzero|Hne]; simpl.
      * split; [eauto|done].
      * split; [done|]. intros (st' & [= <-] & Hzero). done.
    + split; [done|]. intros (st' & Hst & _). done.
  - unfold newQuickActionItem, getChangesCount, hasChanges.
    rewrite Hbound. simpl.
    set (wt := RepositoryState.workingTreeChanges _).
    set (idx := RepositoryState.indexChanges _).
    destruct idx, wt; simpl; split; done.
Qed.

Lemma getChildren_items_witness :
  is_Some (boundRepository (Demo.serviceOf Demo.project) Sim.noEditor None) ∧
  ∃ pushItem rest,
    getChildren (Demo.serviceOf Demo.project) Sim.noEditor
      = pushItem :: rest ∧
    QuickActionItem.command pushItem = None.
Proof.
  assert (is_Some (boundRepository (Demo.serviceOf Demo.project)
                     Sim.noEditor None)) as Hbound by (eexists; reflexivity).
  split; [exact Hbound|].
  destruct (getChildren_items (Demo.serviceOf Demo.project) Sim.noEditor
              Hbound)
    as (pushItem & pullItem & bulkItem & undoItem & Hitems & _ & Hpush & _).
  exists pushItem, [pullItem; bulkItem; undoItem]. split; [exact Hitems|].
  apply Hpush. eexists. split; reflexivity.
Defined.

(** X24.  [getActiveRepository] finds nothing exactly when the service has
    no API object or the extension knows no repository.  Otherwise it
    returns the repository of the active editor's document, if the
    extension finds one for it, and the first repository if not: the result
    is one of these two. *)
Theorem getActiveRepository_choice this window :
  (getActiveRepository this window = None ↔
   GitService.api this = None ∨
   ∃ api, GitService.api this = Some api ∧ API.repositories api = []) ∧
  (∀ api first rest,
     GitService.api this = Some api →
     API.repositories api = first :: rest →
     getActiveRepository this window =
       Some (default first
               (Window.activeTextEditor window ≫= API.getRepository api))).
Proof.
  unfold getActiveRepository. split.
  - destruct (GitService.api this) as [api|].
    2:{ split; [by left|done]. }
    destruct (API.repositories api) eqn:Hr.
    + split; [|done]. intros _. right. eauto.
    + split.
      * destruct (Window.activeTextEditor window); [|done].
        by destruct (API.getRepository api _).
      * intros [?|(api' & [= <-] & ?)]; congruence.
  - intros api first rest -> ->.
    destruct (Window.activeTextEditor window) as [documentUri|]; [|done].
    simpl. by destruct (API.getRepository api documentUri).
Qed.

Lemma getActiveRepository_choice_witness :
  getActiveRepository (Demo.serviceOf Demo.project) Sim.noEditor
  = Some Demo.project.
Proof.
  exact (proj2 (getActiveRepository_choice (Demo.serviceOf Demo.project)
                  Sim.noEditor)
           (API.mk [Demo.project] (λ _, None)) Demo.project []
           eq_refl eq_refl).
Defined.
